(** * Elevator movement log: a shallow embedding of [dmaio/app/main.py]

    The service keeps two tables, [elevators] and [movements], behind a
    SQLAlchemy session.  Every request handler receives a session from
    the [get_db] dependency, reads or writes the tables through it and
    returns rows.

    The embedding follows the Python text:
    - Python [int] is [Z]; a naive [datetime] is a [Z] (a count of
      microseconds), so that comparison and subtraction are those of [Z];
      a nullable column is an [option];
    - a table is the list of its rows in storage (rowid) order, the order
      in which an unordered [SELECT] scans it;
    - the session object is threaded explicitly: a handler is a function
      from the readings of the two clocks and the session to an outcome
      (a value or a raised exception) and the session afterwards;
    - the [get_db] generator is a small machine with a program counter,
      driven by the framework with [next] and [throw].

    Outside the model: failures of the storage layer itself (I/O, locks,
    integers beyond SQLite's 64-bit range) and concurrent requests. *)

From Stdlib Require Import String ZArith List Bool Lia Permutation FinFun.
Import ListNotations.
Open Scope Z_scope.

(** ** Data model *)

(** A naive timestamp, totally ordered; [timedelta] is a difference. *)
Definition datetime := Z.
Definition timedelta := Z.

Module Elevator.
Record t := mk { id : Z; name : string; location : string }.
End Elevator.

Module Movement.
Record t := mk {
  id : Z;
  elevator_id : Z;
  start_floor : Z;
  end_floor : Z;
  arrival_time : datetime;
  departure_time : option datetime
}.

(** [obj.departure_time = v] on a loaded row. *)
Definition with_departure_time (r : t) (v : option datetime) : t :=
  mk (id r) (elevator_id r) (start_floor r) (end_floor r) (arrival_time r) v.
End Movement.

Module ElevatorCreate.
Record t := mk { name : string; location : string }.
End ElevatorCreate.

Module MovementCreate.
Record t := mk {
  elevator_id : Z;
  start_floor : Z;
  end_floor : Z;
  departure_time : option datetime   (* [datetime | None = None] *)
}.
End MovementCreate.

(** The content of [elevator.db]. *)
Record Database := mkDatabase {
  elevators : list Elevator.t;
  movements : list Movement.t
}.

Definition empty_database : Database := mkDatabase [] [].

(** [create_engine(DATABASE_URL)]: a SQLite engine.  SQLite checks
    foreign keys only after [PRAGMA foreign_keys = ON]; the module never
    issues it and passes no option that would, so the engine it builds has
    the check off. *)
Record Engine := mkEngine { url : string; foreign_keys : bool }.

Definition create_engine (u : string) : Engine := mkEngine u false.

Definition DATABASE_URL : string := "sqlite:///./elevator.db".
Definition engine : Engine := create_engine DATABASE_URL.

(** ** Exceptions, clocks and the session *)

Inductive exn :=
| IntegrityError        (* a constraint of the store rejected a statement *)
| InvalidRequestError   (* [refresh] found no row for the instance *)
| TypeError             (* an operand was [None] *)
| GeneratorExit.

Inductive outcome (A : Type) :=
| Return (a : A)
| Raise (e : exn).
Arguments Return {A} a.
Arguments Raise {A} e.

(** The two sources of time a request reads: Python's [datetime.now()]
    (naive local time of the server process) and the store's
    [CURRENT_TIMESTAMP], to which [func.now()] compiles (UTC on SQLite). *)
Record Clock := mkClock { py_now : datetime; sql_now : datetime }.

(** A server whose local time is [offset] away from UTC. *)
Definition clock_at (utc offset : Z) : Clock := mkClock (utc + offset) utc.

(** An object handed to [db.add] and not yet inserted. *)
Inductive Pending :=
| NewElevator (e : ElevatorCreate.t)
| NewMovement (m : MovementCreate.t).

(** A session: the committed content of the store as seen through its
    connection, the unit of work ([new]: objects added, [dirty]: pending
    assignments to [departure_time], keyed by primary key) and whether it
    was closed.  [autoflush=False]: nothing is written before [commit]. *)
Record Session := mkSession {
  bind_engine : Engine;
  file : Database;
  new : list Pending;
  dirty : list (Z * datetime);
  closed : bool
}.

(** [SessionLocal()] on a store whose content is [db]. *)
Definition SessionLocal (db : Database) : Session :=
  mkSession engine db [] [] false.

(** [db.close()]: pending state is discarded, the connection released. *)
Definition close (s : Session) : Session :=
  mkSession (bind_engine s) (file s) [] [] true.

(** Handlers: reader of the clocks, state of the session, exceptions. *)
Definition M (A : Type) : Type := Clock -> Session -> outcome A * Session.

Definition ret {A} (a : A) : M A := fun _ s => (Return a, s).

Definition raise {A} (e : exn) : M A := fun _ s => (Raise e, s).

Definition bind {A B} (m : M A) (k : A -> M B) : M B :=
  fun clk s =>
    match m clk s with
    | (Return a, s') => k a clk s'
    | (Raise e, s') => (Raise e, s')
    end.

Notation "x <- c1 ;; c2" := (bind c1 (fun x => c2))
  (at level 61, c1 at next level, right associativity).
Notation "c1 ;; c2" := (bind c1 (fun _ => c2))
  (at level 61, right associativity).

Definition lift {A} (o : outcome A) : M A := fun _ s => (o, s).

Fixpoint mapM {A B} (f : A -> M B) (l : list A) : M (list B) :=
  match l with
  | [] => ret []
  | a :: l' => b <- f a ;; bs <- mapM f l' ;; ret (b :: bs)
  end.

(** [datetime.now()] *)
Definition datetime_now : M datetime := fun clk s => (Return (py_now clk), s).

(** ** The store *)

Definition is_None {A} (o : option A) : bool :=
  match o with None => true | Some _ => false end.

(** SQLite gives a new row the successor of the largest rowid in use,
    and 1 in an empty table.  The formula below is that rule for tables
    whose rowids are positive and below the largest 64-bit integer (see
    [rowids_in_range]), which is what a store grown from the empty one
    holds. *)
Definition next_rowid (ids : list Z) : Z := 1 + fold_right Z.max 0 ids.

(** [UPDATE movements SET departure_time = t WHERE movements.id = pk] *)
Definition update_departure_time (pk : Z) (t : datetime)
    (rows : list Movement.t) : list Movement.t :=
  map (fun r => if Movement.id r =? pk
                then Movement.with_departure_time r (Some t) else r) rows.

Definition apply_update (u : Z * datetime) (db : Database) : Database :=
  mkDatabase (elevators db)
             (update_departure_time (fst u) (snd u) (movements db)).

Definition elevator_exists (eid : Z) (db : Database) : bool :=
  existsb (fun e => Elevator.id e =? eid) (elevators db).

(** [INSERT]: the row gets its rowid; [arrival_time] is not among the
    fields of [MovementCreate], so it takes the column default
    [func.now()], evaluated by the store. *)
Definition insert_row (eng : Engine) (clk : Clock) (p : Pending)
    (db : Database) : outcome (Z * Database) :=
  match p with
  | NewElevator e =>
      let pk := next_rowid (map Elevator.id (elevators db)) in
      Return (pk, mkDatabase
                    (elevators db ++
                       [Elevator.mk pk (ElevatorCreate.name e)
                                       (ElevatorCreate.location e)])
                    (movements db))
  | NewMovement m =>
      if foreign_keys eng
         && negb (elevator_exists (MovementCreate.elevator_id m) db)
      then Raise IntegrityError
      else
        let pk := next_rowid (map Movement.id (movements db)) in
        Return (pk, mkDatabase
                      (elevators db)
                      (movements db ++
                         [Movement.mk pk (MovementCreate.elevator_id m)
                                      (MovementCreate.start_floor m)
                                      (MovementCreate.end_floor m)
                                      (sql_now clk)
                                      (MovementCreate.departure_time m)]))
  end.

Fixpoint insert_all (eng : Engine) (clk : Clock) (ps : list Pending)
    (db : Database) : outcome (list Z * Database) :=
  match ps with
  | [] => Return ([], db)
  | p :: ps' =>
      match insert_row eng clk p db with
      | Raise e => Raise e
      | Return (pk, db1) =>
          match insert_all eng clk ps' db1 with
          | Raise e => Raise e
          | Return (pks, db2) => Return (pk :: pks, db2)
          end
      end
  end.

(** ** Session operations *)

(** [db.query(Movement).filter(p).all()] *)
Definition query_all (p : Movement.t -> bool) : M (list Movement.t) :=
  fun _ s => (Return (filter p (movements (file s))), s).

(** [db.query(Movement).filter(p).first()] *)
Definition query_first (p : Movement.t -> bool) : M (option Movement.t) :=
  fun _ s => (Return (find p (movements (file s))), s).

(** [db.query(Elevator).all()] *)
Definition query_elevators : M (list Elevator.t) :=
  fun _ s => (Return (elevators (file s)), s).

(** [obj.departure_time = t] on a persistent object: the session records
    the change and writes it at the next flush. *)
Definition set_departure_time (obj : Movement.t) (t : datetime) : M unit :=
  fun _ s =>
    (Return tt,
     mkSession (bind_engine s) (file s) (new s)
               (dirty s ++ [(Movement.id obj, t)]) (closed s)).

(** [db.add(obj)] *)
Definition add (obj : Pending) : M unit :=
  fun _ s =>
    (Return tt,
     mkSession (bind_engine s) (file s) (new s ++ [obj]) (dirty s) (closed s)).

(** [db.commit()]: flush the unit of work and commit.  The result lists
    the primary keys given to the inserted objects (Python stores each in
    its object).  If a statement is rejected the transaction is rolled
    back and the store keeps its content. *)
Definition commit : M (list Z) :=
  fun clk s =>
    let db1 := fold_left (fun db u => apply_update u db) (dirty s) (file s) in
    match insert_all (bind_engine s) clk (new s) db1 with
    | Raise e => (Raise e, s)
    | Return (pks, db2) =>
        (Return pks, mkSession (bind_engine s) db2 [] [] (closed s))
    end.

(** [db.refresh(obj)] for a movement with primary key [pk]: the row is
    read again. *)
Definition refresh (pk : Z) : M Movement.t :=
  fun _ s =>
    match find (fun r => Movement.id r =? pk) (movements (file s)) with
    | Some r => (Return r, s)
    | None => (Raise InvalidRequestError, s)
    end.

Definition refresh_elevator (pk : Z) : M Elevator.t :=
  fun _ s =>
    match find (fun e => Elevator.id e =? pk) (elevators (file s)) with
    | Some e => (Return e, s)
    | None => (Raise InvalidRequestError, s)
    end.

(** The primary key of the one object a [commit] inserted. *)
Definition the_key (pks : list Z) : M Z :=
  match pks with
  | [pk] => ret pk
  | _ => raise InvalidRequestError
  end.

(** ** Request handlers *)

(** [GET /elevators] *)
Definition get_elevators : M (list Elevator.t) := query_elevators.

(** [POST /elevators/] *)
Definition create_elevator (elevator : ElevatorCreate.t) : M Elevator.t :=
  let db_elevator := NewElevator elevator in
  add db_elevator ;;
  pks <- commit ;;
  pk <- the_key pks ;;
  refresh_elevator pk.

(** The filter of [log_movement]:
    [Movement.elevator_id == e] and [Movement.departure_time == None]. *)
Definition open_for (e : Z) (r : Movement.t) : bool :=
  (Movement.elevator_id r =? e) && is_None (Movement.departure_time r).

(** [POST /movements/] *)
Definition log_movement (movement : MovementCreate.t) : M Movement.t :=
  let db_movement := NewMovement movement in
  db_movement_match <-
    query_first (open_for (MovementCreate.elevator_id movement)) ;;
  match db_movement_match with
  | Some m =>
      now <- datetime_now ;;
      set_departure_time m now ;;
      commit ;;
      refresh (Movement.id m) ;;
      ret tt
  | None => ret tt
  end ;;
  add db_movement ;;
  pks <- commit ;;
  pk <- the_key pks ;;
  refresh pk.

(** [GET /movements/] *)
Definition get_movements : M (list Movement.t) :=
  query_all (fun _ => true).

(** [GET /movements/{elevator_id}]: the second [get_movements] of the
    module, which takes [eid]. *)
Definition get_movements' (eid : Z) : M (list Movement.t) :=
  query_all (fun r => Movement.elevator_id r =? eid).

(** [GET /resting_elevators] *)
Definition get_resting_elevators : M (list Movement.t) :=
  query_all (fun r => is_None (Movement.departure_time r)).

(** ** The grouped query of [get_ml_data] *)

(** [GROUP BY start_floor, end_floor] *)
Definition same_group (a b : Movement.t) : bool :=
  (Movement.start_floor a =? Movement.start_floor b)
  && (Movement.end_floor a =? Movement.end_floor b).

(** A group is never empty: its first row in scan order and the rest. *)
Definition Group : Type := Movement.t * list Movement.t.

Definition group_rows (g : Group) : list Movement.t := fst g :: snd g.

Fixpoint group_add (r : Movement.t) (gs : list Group) : list Group :=
  match gs with
  | [] => [(r, [])]
  | (r0, g) :: gs' =>
      if same_group r0 r then (r0, g ++ [r]) :: gs'
      else (r0, g) :: group_add r gs'
  end.

Definition group_by (rows : list Movement.t) : list Group :=
  fold_left (fun gs r => group_add r gs) rows [].

(** What SQL leaves to the engine: which row of a group supplies the
    columns that are neither grouped nor aggregated (SQLite takes all of
    them from one row of the group), and the order of the groups. *)
Class GroupBySemantics := {
  bare_row : Movement.t -> list Movement.t -> Movement.t;
  bare_row_In : forall r g, In (bare_row r g) (r :: g);
  group_order : list Group -> list Group;
  group_order_perm : forall gs, Permutation (group_order gs) gs
}.

(** One row of [demand_data]; [d0] .. [d5] are the tuple positions. *)
Record DemandRow := mkDemandRow {
  d0 : Z;                  (* Movement.start_floor *)
  d1 : Z;                  (* Movement.end_floor *)
  d2 : datetime;           (* Movement.arrival_time *)
  d3 : option datetime;    (* Movement.departure_time *)
  d4 : Z;                  (* func.count(Movement.elevator_id) *)
  d5 : Z                   (* Movement.elevator_id *)
}.

(** [elevator_id] is [nullable=False], so [count(elevator_id)] counts
    the rows of the group. *)
Definition demand_row `{GroupBySemantics} (g : Group) : DemandRow :=
  let rep := bare_row (fst g) (snd g) in
  mkDemandRow (Movement.start_floor (fst g)) (Movement.end_floor (fst g))
              (Movement.arrival_time rep) (Movement.departure_time rep)
              (Z.of_nat (length (group_rows g)))
              (Movement.elevator_id rep).

Definition is_closed (r : Movement.t) : bool :=
  negb (is_None (Movement.departure_time r)).

Definition query_demand `{GroupBySemantics} : M (list DemandRow) :=
  fun _ s =>
    (Return (map demand_row
               (group_order (group_by (filter is_closed (movements (file s)))))),
     s).

Module TrainingEntry.
Record t := mk { requested_floor : Z; destination_floor : Z; count : Z }.
End TrainingEntry.

Module ElapsedEntry.
Record t := mk {
  start_floor : Z;
  end_floor : Z;
  elevator_id : Z;
  elapsed_time_secs : timedelta
}.
End ElapsedEntry.

Record MlData := mkMlData {
  training_data : list TrainingEntry.t;
  elapsed_data : list ElapsedEntry.t
}.

(** [a - b] on a nullable and a non-null timestamp. *)
Definition datetime_sub (a : option datetime) (b : datetime)
    : outcome timedelta :=
  match a with
  | Some t => Return (t - b)
  | None => Raise TypeError
  end.

(** [GET /ml_data/] *)
Definition get_ml_data `{GroupBySemantics} : M MlData :=
  demand_data <- query_demand ;;
  let formatted_demand_data :=
    map (fun d => TrainingEntry.mk (d0 d) (d1 d) (d4 d)) demand_data in
  elapsed_data <-
    mapM (fun d =>
            dt <- lift (datetime_sub (d3 d) (d2 d)) ;;
            ret (ElapsedEntry.mk (d0 d) (d1 d) (d5 d) dt))
         demand_data ;;
  ret (mkMlData formatted_demand_data elapsed_data).

(** ** The [get_db] dependency *)

(** Where the generator stands: before its first statement, suspended at
    [yield db] inside the [try], or finished. *)
Inductive gen_pc := AtStart | AtYield | Finished.

(** How the caller resumes it. *)
Inductive resume := next | throw (e : exn).

Inductive gen_out :=
| Yielded            (* [db] was yielded *)
| StopIteration
| Raised (e : exn).

(** One resumption of [get_db].  [obj] is the state of the session object
    the local [db] refers to ([None] before [SessionLocal()] ran); [store]
    is the content of the file the session is opened on. *)
Definition get_db (store : Database) (r : resume) (pc : gen_pc)
    (obj : option Session) : gen_out * gen_pc * option Session :=
  match pc, r with
  | AtStart, next =>
      (* db = SessionLocal(); try: yield db *)
      (Yielded, AtYield, Some (SessionLocal store))
  | AtStart, throw e => (Raised e, Finished, obj)
  | AtYield, next =>
      (* the try block ends; finally: db.close() *)
      (StopIteration, Finished, option_map close obj)
  | AtYield, throw e =>
      (* the exception surfaces at the yield; finally: db.close() *)
      (Raised e, Finished, option_map close obj)
  | Finished, next => (StopIteration, Finished, obj)
  | Finished, throw e => (Raised e, Finished, obj)
  end.

(** [Depends(get_db)]: the framework starts the generator, calls the
    handler with the yielded session and afterwards resumes the
    generator: with [next] when the handler returned, by throwing the
    handler's exception into it when it raised. *)
Definition handle_request {A} (handler : M A) (clk : Clock)
    (store : Database) : outcome A * option Session :=
  match get_db store next AtStart None with
  | (Yielded, pc, Some db) =>
      match handler clk db with
      | (Return a, db') =>
          let '(_, _, obj) := get_db store next pc (Some db') in
          (Return a, obj)
      | (Raise e, db') =>
          let '(_, _, obj) := get_db store (throw e) pc (Some db') in
          (Raise e, obj)
      end
  | (_, _, obj) => (Raise InvalidRequestError, obj)
  end.

(** The store after a request: what its session committed. *)
Definition store_after {A} (res : outcome A * option Session)
    (store : Database) : Database :=
  match snd res with
  | Some s => file s
  | None => store
  end.

(** * Vocabulary of the properties *)

(** ** One call of [log_movement] *)

(** The table once the open row of the elevator, if any, is closed. *)
Definition after_close (e : Z) (t : datetime) (tbl : list Movement.t)
    : list Movement.t :=
  match find (open_for e) tbl with
  | Some m => update_departure_time (Movement.id m) t tbl
  | None => tbl
  end.

(** The row the [INSERT] of [log_movement] creates. *)
Definition inserted_row (movement : MovementCreate.t) (clk : Clock)
    (tbl : list Movement.t) : Movement.t :=
  Movement.mk (next_rowid (map Movement.id tbl))
              (MovementCreate.elevator_id movement)
              (MovementCreate.start_floor movement)
              (MovementCreate.end_floor movement)
              (sql_now clk)
              (MovementCreate.departure_time movement).

(** The primary key: no two rows of [movements] share an [id]. *)
Definition pk_unique (db : Database) : Prop :=
  NoDup (map Movement.id (movements db)).

(** The open rows of an elevator. *)
Definition open_rows (e : Z) (tbl : list Movement.t) : list Movement.t :=
  filter (open_for e) tbl.

(** At most one open row per elevator. *)
Definition at_most_one_open (tbl : list Movement.t) : Prop :=
  forall e, (length (open_rows e tbl) <= 1)%nat.

(** The same, as a check over the elevators that occur in the table. *)
Definition at_most_one_openb (tbl : list Movement.t) : bool :=
  forallb (fun r => (length (open_rows (Movement.elevator_id r) tbl) <=? 1)%nat)
          tbl.

(** ** Groups and the report *)

Definition sumZ (l : list Z) : Z := fold_right Z.add 0 l.

Definition group_size (g : Group) : Z := Z.of_nat (length (group_rows g)).

(** The pair a group stands for. *)
Definition group_key (g : Group) : Z * Z :=
  (Movement.start_floor (fst g), Movement.end_floor (fst g)).

Definition row_key (r : Movement.t) : Z * Z :=
  (Movement.start_floor r, Movement.end_floor r).

(** The entries the two comprehensions of [get_ml_data] build. *)
Definition training_entry (d : DemandRow) : TrainingEntry.t :=
  TrainingEntry.mk (d0 d) (d1 d) (d4 d).

(** The entry of [elapsed_data] for a row whose [departure_time] is
    not null. *)
Definition elapsed_entry (d : DemandRow) : ElapsedEntry.t :=
  ElapsedEntry.mk (d0 d) (d1 d) (d5 d)
                  (match d3 d with Some t => t - d2 d | None => 0 end).

(** [demand_data] as a function of the session's store. *)
Definition demand_of `{GroupBySemantics} (s : Session) : list DemandRow :=
  map demand_row
      (group_order (group_by (filter is_closed (movements (file s))))).

Fixpoint last_of (r : Movement.t) (g : list Movement.t) : Movement.t :=
  match g with
  | [] => r
  | a :: g' => last_of a g'
  end.

(** An engine that keeps the groups in order of first occurrence and
    reads the bare columns from the last row of each group. *)
#[export] Instance last_row_semantics : GroupBySemantics.
Proof.
  refine {| bare_row := last_of; group_order := fun gs => gs |}.
  - intros r g. revert r.
    induction g as [|a g IH]; intros r; [left; reflexivity|].
    right. exact (IH a).
  - intros gs. apply Permutation_refl.
Defined.

(** ** A small store for examples *)

Definition example_open_row : Movement.t := Movement.mk 1 7 1 5 100 None.
Definition example_other_row : Movement.t := Movement.mk 2 8 0 3 120 None.
Definition example_store : Database :=
  mkDatabase [] [example_open_row; example_other_row].
Definition example_request : MovementCreate.t := MovementCreate.mk 7 5 2 None.
Definition example_clock : Clock := mkClock 200 200.

(** ** Calls of the handlers *)

(** One call of a handler of the module, with its arguments. *)
Inductive Call :=
| CallGetElevators
| CallCreateElevator (elevator : ElevatorCreate.t)
| CallLogMovement (movement : MovementCreate.t)
| CallGetMovements
| CallGetMovementsOf (eid : Z)
| CallGetRestingElevators
| CallGetMlData.

Inductive Response :=
| ElevatorList (l : list Elevator.t)
| ElevatorRow (e : Elevator.t)
| MovementRow (m : Movement.t)
| MovementList (l : list Movement.t)
| MlReport (d : MlData).

Definition handler_of `{GroupBySemantics} (c : Call) : M Response :=
  match c with
  | CallGetElevators => l <- get_elevators ;; ret (ElevatorList l)
  | CallCreateElevator elevator =>
      e <- create_elevator elevator ;; ret (ElevatorRow e)
  | CallLogMovement movement =>
      m <- log_movement movement ;; ret (MovementRow m)
  | CallGetMovements => l <- get_movements ;; ret (MovementList l)
  | CallGetMovementsOf eid => l <- get_movements' eid ;; ret (MovementList l)
  | CallGetRestingElevators =>
      l <- get_resting_elevators ;; ret (MovementList l)
  | CallGetMlData => d <- get_ml_data ;; ret (MlReport d)
  end.

(** A call served through [Depends(get_db)]: its outcome and the store
    it leaves. *)
Definition serve `{GroupBySemantics} (c : Call) (clk : Clock)
    (store : Database) : outcome Response * Database :=
  let res := handle_request (handler_of c) clk store in
  (fst res, store_after res store).

(** The store after a sequence of calls, each with its clock readings. *)
Fixpoint serve_all `{GroupBySemantics} (cs : list (Call * Clock))
    (store : Database) : Database :=
  match cs with
  | [] => store
  | (c, clk) :: cs' => serve_all cs' (snd (serve c clk store))
  end.

(** The calls that only read. *)
Definition reads (c : Call) : bool :=
  match c with
  | CallCreateElevator _ | CallLogMovement _ => false
  | _ => true
  end.

Definition is_log_movement (c : Call) : bool :=
  match c with CallLogMovement _ => true | _ => false end.

Definition is_create_elevator (c : Call) : bool :=
  match c with CallCreateElevator _ => true | _ => false end.

(** How many calls of a sequence satisfy [p]. *)
Definition calls_of (p : Call -> bool) (cs : list (Call * Clock)) : nat :=
  length (filter (fun x => p (fst x)) cs).

(** Two rows that agree on everything but [departure_time]. *)
Definition same_but_departure (r r' : Movement.t) : Prop :=
  Movement.id r' = Movement.id r
  /\ Movement.elevator_id r' = Movement.elevator_id r
  /\ Movement.start_floor r' = Movement.start_floor r
  /\ Movement.end_floor r' = Movement.end_floor r
  /\ Movement.arrival_time r' = Movement.arrival_time r.

(** Both clocks show the same time at every call, and that time never
    goes back; [t] is the time before the first call. *)
Fixpoint steady_clock (t : datetime) (cs : list (Call * Clock)) : Prop :=
  match cs with
  | [] => True
  | (_, clk) :: cs' =>
      py_now clk = sql_now clk /\ t <= sql_now clk
      /\ steady_clock (sql_now clk) cs'
  end.

(** The call is not a [log_movement] that brings its own
    [departure_time]. *)
Definition omits_departure (c : Call) : bool :=
  match c with
  | CallLogMovement movement =>
      is_None (MovementCreate.departure_time movement)
  | _ => true
  end.

(** By time [t] every row has arrived and every closed row has departed,
    and none departed before it arrived. *)
Definition times_in_order (t : datetime) (tbl : list Movement.t) : Prop :=
  forall r, In r tbl ->
    Movement.arrival_time r <= t
    /\ forall d, Movement.departure_time r = Some d ->
                 Movement.arrival_time r <= d <= t.

(** The row [create_elevator] inserts. *)
Definition inserted_elevator (elevator : ElevatorCreate.t)
    (els : list Elevator.t) : Elevator.t :=
  Elevator.mk (next_rowid (map Elevator.id els))
              (ElevatorCreate.name elevator)
              (ElevatorCreate.location elevator).

(** Ids handed out one after the other from 1, in storage order. *)
Definition consecutive_ids (ids : list Z) : Prop :=
  ids = map Z.of_nat (seq 1 (length ids)).

(** What every store reached from the empty one satisfies. *)
Definition well_formed (db : Database) : Prop :=
  consecutive_ids (map Elevator.id (elevators db))
  /\ consecutive_ids (map Movement.id (movements db))
  /\ at_most_one_open (movements db).

(** The rows [get_resting_elevators] selects. *)
Definition resting (r : Movement.t) : bool :=
  is_None (Movement.departure_time r).

Definition key_eqb (a b : Z * Z) : bool :=
  (fst a =? fst b) && (snd a =? snd b).

(** The closed rows going from floor [fst k] to floor [snd k]. *)
Definition closed_with_pair (k : Z * Z) (r : Movement.t) : bool :=
  is_closed r && key_eqb (row_key r) k.

(** The number of rows in the groups that stand for the pair [k]. *)
Definition size_for (k : Z * Z) (gs : list Group) : Z :=
  sumZ (map group_size (filter (fun g => key_eqb (group_key g) k) gs)).

(** ** The request behind [get_movements(eid)] *)

(** What the framework answers to a request. *)
Inductive HttpResponse (A : Type) :=
| Status200 (body : A)
| Status422               (* the request did not validate *)
| Status500 (e : exn).
Arguments Status200 {A} body.
Arguments Status422 {A}.
Arguments Status500 {A} e.

(** A [GET /movements/{elevator_id}] request: the integer written in the
    path segment and the query parameter [eid], if the request has one. *)
Record MovementsRequest := mkMovementsRequest {
  path_elevator_id : Z;
  query_eid : option Z
}.

(** The route [@app.get("/movements/{elevator_id}")] on
    [def get_movements(eid: int, db)].  The function has no parameter
    named [elevator_id], so the path segment is bound to nothing; [eid]
    does not occur in the path, so the framework reads it from the query
    string, where it is required: a request without it is answered 422
    and the function is not called. *)
Definition route_movements_elevator_id (req : MovementsRequest)
    (clk : Clock) (store : Database)
    : HttpResponse (list Movement.t) * Database :=
  match query_eid req with
  | None => (Status422, store)
  | Some eid =>
      let res := handle_request (get_movements' eid) clk store in
      (match fst res with
       | Return rows => Status200 rows
       | Raise e => Status500 e
       end,
       store_after res store)
  end.

(** ** The range of the store's integers *)

(** The largest rowid of SQLite. *)
Definition max_rowid : Z := 9223372036854775807.

(** Rowids for which [next_rowid] is SQLite's rule: positive, and the
    largest possible one not in use. *)
Definition rowids_in_range (ids : list Z) : Prop :=
  forall i, In i ids -> 1 <= i < max_rowid.

(** A Python [int] the store accepts as an [INTEGER]. *)
Definition in_int64 (z : Z) : bool :=
  (- max_rowid - 1 <=? z) && (z <=? max_rowid).

(** The integer arguments of a call fit the store. *)
Definition call_in_range (c : Call) : bool :=
  match c with
  | CallLogMovement movement =>
      in_int64 (MovementCreate.elevator_id movement)
      && in_int64 (MovementCreate.start_floor movement)
      && in_int64 (MovementCreate.end_floor movement)
  | CallGetMovementsOf eid => in_int64 eid
  | _ => true
  end.

(** * Properties *)

(** ** Row identifiers and the first matching row *)

Lemma next_rowid_gt (ids : list Z) (i : Z) :
  In i ids -> i < next_rowid ids.
Proof.
  unfold next_rowid.
  induction ids as [|j ids IH]; cbn [fold_right In]; [tauto|].
  intros [->|Hin]; [lia|].
  specialize (IH Hin). lia.
Qed.

Lemma map_id_update (pk : Z) (t : datetime) (rows : list Movement.t) :
  map Movement.id (update_departure_time pk t rows) = map Movement.id rows.
Proof.
  unfold update_departure_time.
  induction rows as [|r rows IH]; simpl; [reflexivity|].
  rewrite IH. destruct (Movement.id r =? pk); reflexivity.
Qed.

Lemma find_fresh_row (rows : list Movement.t) (row : Movement.t) :
  (forall r, In r rows -> Movement.id r < Movement.id row) ->
  find (fun r => Movement.id r =? Movement.id row) (rows ++ [row]) = Some row.
Proof.
  induction rows as [|r rows IH]; simpl; intros Hlt.
  - rewrite Z.eqb_refl. reflexivity.
  - destruct (Z.eqb_spec (Movement.id r) (Movement.id row)) as [Heq|_].
    + specialize (Hlt r (or_introl eq_refl)). lia.
    + apply IH. intros r' Hr'. apply Hlt. right. exact Hr'.
Qed.

Lemma find_id_present (rows : list Movement.t) (pk : Z) :
  In pk (map Movement.id rows) ->
  exists r, find (fun r => Movement.id r =? pk) rows = Some r.
Proof.
  induction rows as [|r rows IH]; simpl; [tauto|].
  intros [Heq|Hin].
  - exists r. rewrite Heq, Z.eqb_refl. reflexivity.
  - destruct (Movement.id r =? pk); [eexists; reflexivity|].
    apply IH, Hin.
Qed.

(** [find] returns the first match: nothing before it matches. *)
Lemma find_first {A} (p : A -> bool) (l : list A) (m : A) :
  find p l = Some m ->
  exists pre post,
    l = pre ++ m :: post /\ p m = true /\ (forall r, In r pre -> p r = false).
Proof.
  induction l as [|a l IH]; simpl; [discriminate|].
  destruct (p a) eqn:Hpa.
  - intros [= ->]. exists [], l. simpl. tauto.
  - intros Hf. destruct (IH Hf) as (pre & post & -> & Hm & Hpre).
    exists (a :: pre), post. simpl. repeat split; trivial.
    intros r [<-|Hr]; auto.
Qed.

Lemma find_first_inv {A} (p : A -> bool) (pre post : list A) (m : A) :
  p m = true -> (forall r, In r pre -> p r = false) ->
  find p (pre ++ m :: post) = Some m.
Proof.
  intros Hm. induction pre as [|a pre IH]; simpl; intros Hpre.
  - rewrite Hm. reflexivity.
  - rewrite (Hpre a (or_introl eq_refl)). apply IH.
    intros r Hr. apply Hpre. right. exact Hr.
Qed.

Lemma find_none_iff {A} (p : A -> bool) (l : list A) :
  find p l = None <-> (forall r, In r l -> p r = false).
Proof.
  split.
  - intros Hf r Hr. exact (find_none p l Hf r Hr).
  - induction l as [|a l IH]; simpl; intros H; [reflexivity|].
    rewrite (H a (or_introl eq_refl)). apply IH.
    intros r Hr. apply H. right. exact Hr.
Qed.

(** Under a primary key, the [UPDATE] touches the one row it names. *)
Lemma update_unique_row (t : datetime) (pre post : list Movement.t)
    (m : Movement.t) :
  NoDup (map Movement.id (pre ++ m :: post)) ->
  update_departure_time (Movement.id m) t (pre ++ m :: post)
  = pre ++ Movement.with_departure_time m (Some t) :: post.
Proof.
  intros Hnd.
  assert (Hfix : forall l, ~ In (Movement.id m) (map Movement.id l) ->
                           update_departure_time (Movement.id m) t l = l).
  { induction l as [|r l IH]; simpl; intros Hn; [reflexivity|].
    destruct (Z.eqb_spec (Movement.id r) (Movement.id m)) as [Heq|_];
      [exfalso; apply Hn; left; exact Heq|].
    f_equal. apply IH. intros Hin. apply Hn. right. exact Hin. }
  rewrite map_app in Hnd. simpl in Hnd.
  pose proof (NoDup_remove_2 _ _ _ Hnd) as Hnot.
  unfold update_departure_time in *.
  rewrite map_app. simpl. rewrite Z.eqb_refl.
  rewrite !Hfix; [reflexivity| |];
    intros Hin; apply Hnot, in_or_app; [right|left]; exact Hin.
Qed.

(** ** What one call of [log_movement] computes *)

Lemma map_id_after_close (e : Z) (t : datetime) (tbl : list Movement.t) :
  map Movement.id (after_close e t tbl) = map Movement.id tbl.
Proof.
  unfold after_close. destruct (find (open_for e) tbl); [|reflexivity].
  apply map_id_update.
Qed.

Lemma inserted_row_fresh movement clk (tbl tbl' : list Movement.t) :
  map Movement.id tbl' = map Movement.id tbl ->
  forall r, In r tbl' ->
            Movement.id r < Movement.id (inserted_row movement clk tbl).
Proof.
  intros Hids r Hr. simpl. apply next_rowid_gt.
  rewrite <- Hids. apply in_map, Hr.
Qed.

Lemma log_movement_run (movement : MovementCreate.t) (clk : Clock)
    (s : Session) :
  foreign_keys (bind_engine s) = false -> new s = [] -> dirty s = [] ->
  log_movement movement clk s
  = (Return (inserted_row movement clk (movements (file s))),
     mkSession (bind_engine s)
       (mkDatabase (elevators (file s))
          (after_close (MovementCreate.elevator_id movement) (py_now clk)
                       (movements (file s))
           ++ [inserted_row movement clk (movements (file s))]))
       [] [] (closed s)).
Proof.
  intros Hfk Hnew Hdirty.
  destruct s as [eng [els tbl] nw dt cl]. simpl in *. subst.
  unfold log_movement, after_close, bind, query_first. simpl.
  destruct (find (open_for (MovementCreate.elevator_id movement)) tbl)
    as [m|] eqn:Hfind.
  - unfold datetime_now, set_departure_time, commit, refresh, add, the_key,
      ret. simpl.
    destruct (find_id_present
                (update_departure_time (Movement.id m) (py_now clk) tbl)
                (Movement.id m)) as [r' Hr'].
    { rewrite map_id_update. apply in_map. exact (proj1 (find_some _ _ Hfind)). }
    rewrite Hr'. simpl. rewrite map_id_update, Hfk. simpl.
    change (Movement.mk (next_rowid (map Movement.id tbl)) _ _ _ _ _)
      with (inserted_row movement clk tbl).
    change (next_rowid (map Movement.id tbl))
      with (Movement.id (inserted_row movement clk tbl)).
    rewrite (find_fresh_row _ (inserted_row movement clk tbl)
               (inserted_row_fresh movement clk tbl _ (map_id_update _ _ _))).
    reflexivity.
  - unfold commit, refresh, add, the_key, ret. simpl. rewrite Hfk. simpl.
    change (Movement.mk (next_rowid (map Movement.id tbl)) _ _ _ _ _)
      with (inserted_row movement clk tbl).
    change (next_rowid (map Movement.id tbl))
      with (Movement.id (inserted_row movement clk tbl)).
    rewrite (find_fresh_row _ (inserted_row movement clk tbl)
               (inserted_row_fresh movement clk tbl _ eq_refl)).
    reflexivity.
Qed.

Lemma log_movement_fresh (movement : MovementCreate.t) (clk : Clock)
    (db : Database) :
  log_movement movement clk (SessionLocal db)
  = (Return (inserted_row movement clk (movements db)),
     mkSession engine
       (mkDatabase (elevators db)
          (after_close (MovementCreate.elevator_id movement) (py_now clk)
                       (movements db)
           ++ [inserted_row movement clk (movements db)]))
       [] [] false).
Proof.
  apply (log_movement_run movement clk (SessionLocal db)); reflexivity.
Qed.

(** The same call as a request: the session it ran in is closed and the
    store holds what was committed. *)
Lemma handle_request_log_movement (movement : MovementCreate.t) (clk : Clock)
    (db : Database) :
  let res := handle_request (log_movement movement) clk db in
  fst res = Return (inserted_row movement clk (movements db))
  /\ option_map closed (snd res) = Some true
  /\ store_after res db
     = mkDatabase (elevators db)
         (after_close (MovementCreate.elevator_id movement) (py_now clk)
                      (movements db)
          ++ [inserted_row movement clk (movements db)]).
Proof.
  unfold handle_request, store_after. cbn [get_db].
  rewrite log_movement_fresh. cbn. repeat split.
Qed.

Lemma pk_unique_empty : pk_unique empty_database.
Proof. constructor. Qed.

Lemma NoDup_snoc {A} (l : list A) (a : A) :
  NoDup l -> ~ In a l -> NoDup (l ++ [a]).
Proof.
  intros Hnd Hn. induction Hnd as [|x l Hx Hnd IH]; simpl.
  - constructor; [tauto|constructor].
  - constructor.
    + rewrite in_app_iff. simpl. intros [H|[H|[]]]; [tauto|].
      apply Hn. left. symmetry. exact H.
    + apply IH. intros H. apply Hn. right. exact H.
Qed.

(** [log_movement] keeps the key unique. *)
Lemma log_movement_pk_unique movement clk db row s' :
  pk_unique db ->
  log_movement movement clk (SessionLocal db) = (Return row, s') ->
  pk_unique (file s').
Proof.
  unfold pk_unique. intros Hnd. rewrite log_movement_fresh.
  intros [= _ <-]. simpl.
  rewrite map_app, map_id_after_close. simpl.
  apply NoDup_snoc; [exact Hnd|].
  intros Hin. apply next_rowid_gt in Hin. lia.
Qed.

Lemma after_close_none (e : Z) (t : datetime) (tbl : list Movement.t) :
  (forall r, In r tbl -> open_for e r = false) -> after_close e t tbl = tbl.
Proof.
  intros H. unfold after_close.
  rewrite (proj2 (find_none_iff _ _) H). reflexivity.
Qed.

Lemma after_close_first (e : Z) (t : datetime) (pre post : list Movement.t)
    (m : Movement.t) :
  NoDup (map Movement.id (pre ++ m :: post)) ->
  open_for e m = true -> (forall r, In r pre -> open_for e r = false) ->
  after_close e t (pre ++ m :: post)
  = pre ++ Movement.with_departure_time m (Some t) :: post.
Proof.
  intros Hnd Hm Hpre. unfold after_close.
  rewrite (find_first_inv _ _ _ _ Hm Hpre).
  apply update_unique_row, Hnd.
Qed.

Lemma open_row_first (e : Z) (tbl : list Movement.t) :
  (exists r, In r tbl /\ open_for e r = true) ->
  exists pre m post,
    tbl = pre ++ m :: post /\ open_for e m = true
    /\ (forall r, In r pre -> open_for e r = false).
Proof.
  intros (r & Hr & Hopen).
  destruct (find (open_for e) tbl) as [m|] eqn:Hfind.
  - destruct (find_first _ _ _ Hfind) as (pre & post & H).
    exists pre, m, post. exact H.
  - rewrite (find_none _ _ Hfind r Hr) in Hopen. discriminate.
Qed.

(** C1: one call of [log_movement] on a store with a primary key returns
    the new row, leaves nothing pending (both writes are committed) and
    does not touch [elevators].  The new row carries the given fields,
    the next rowid, the store's time as [arrival_time] and the given
    [departure_time] (null when omitted).  When the elevator has no open
    row, the table is the old one with the new row appended.  When it has
    one, the first of them in scan order gets [departure_time] set to the
    server's current time and the new row is appended: exactly one row is
    inserted either way. *)
Theorem log_movement_closes_then_inserts
    (db : Database) (clk : Clock) (movement : MovementCreate.t) :
  pk_unique db ->
  let e := MovementCreate.elevator_id movement in
  exists row s',
    log_movement movement clk (SessionLocal db) = (Return row, s')
    /\ new s' = [] /\ dirty s' = []
    /\ elevators (file s') = elevators db
    /\ row = Movement.mk (next_rowid (map Movement.id (movements db)))
                         e
                         (MovementCreate.start_floor movement)
                         (MovementCreate.end_floor movement)
                         (sql_now clk)
                         (MovementCreate.departure_time movement)
    /\ length (movements (file s')) = S (length (movements db))
    /\ ((forall r, In r (movements db) -> open_for e r = false) ->
        movements (file s') = movements db ++ [row])
    /\ ((exists r, In r (movements db) /\ open_for e r = true) ->
        exists pre m post,
          movements db = pre ++ m :: post
          /\ open_for e m = true
          /\ (forall r, In r pre -> open_for e r = false)
          /\ movements (file s')
             = pre ++ Movement.with_departure_time m (Some (py_now clk))
                   :: post ++ [row]).
Proof.
  intros Hpk e.
  eexists _, _. split; [apply log_movement_fresh|]. simpl.
  repeat split.
  - rewrite length_app, <- (length_map Movement.id (after_close _ _ _)),
      map_id_after_close, length_map. simpl. lia.
  - intros Hnone. fold e. rewrite (after_close_none e _ _ Hnone). reflexivity.
  - intros Hex. destruct (open_row_first e _ Hex) as (pre & m & post & Heq & Hm & Hpre).
    exists pre, m, post. repeat split; trivial.
    fold e. unfold pk_unique in Hpk. rewrite Heq in *.
    rewrite (after_close_first e _ pre post m Hpk Hm Hpre).
    rewrite <- app_assoc. reflexivity.
Qed.

Lemma pk_unique_example : pk_unique example_store.
Proof.
  unfold pk_unique. simpl.
  repeat constructor; simpl; intuition discriminate.
Defined.

Lemma log_movement_closes_then_inserts_witness :
  pk_unique example_store
  /\ exists row s',
       log_movement example_request example_clock (SessionLocal example_store)
       = (Return row, s')
       /\ row = Movement.mk 3 7 5 2 200 None
       /\ length (movements (file s')) = 3%nat.
Proof.
  split; [exact pk_unique_example|].
  destruct (log_movement_closes_then_inserts
              example_store example_clock example_request pk_unique_example)
    as (row & s' & Hrun & _ & _ & _ & Hrow & Hlen & _).
  exists row, s'. repeat split; assumption.
Defined.

(** ** The open-record invariant *)

Lemma open_rows_absent (e : Z) (tbl : list Movement.t) :
  (forall r, In r tbl -> Movement.elevator_id r <> e) -> open_rows e tbl = [].
Proof.
  unfold open_rows. induction tbl as [|r tbl IH]; simpl; intros H;
    [reflexivity|].
  unfold open_for at 1.
  destruct (Z.eqb_spec (Movement.elevator_id r) e) as [Heq|_].
  - exfalso. exact (H r (or_introl eq_refl) Heq).
  - simpl. apply IH. intros r' Hr'. apply H. right. exact Hr'.
Qed.

Lemma at_most_one_openb_correct (tbl : list Movement.t) :
  at_most_one_openb tbl = true -> at_most_one_open tbl.
Proof.
  unfold at_most_one_openb, at_most_one_open. rewrite forallb_forall.
  intros H e.
  destruct (existsb (fun r => Movement.elevator_id r =? e) tbl) eqn:Hex.
  - apply existsb_exists in Hex. destruct Hex as (r & Hr & Heq).
    apply Z.eqb_eq in Heq. subst e. apply Nat.leb_le, H, Hr.
  - rewrite open_rows_absent; [simpl; lia|].
    intros r Hr Heq.
    assert (Ht : existsb (fun r => Movement.elevator_id r =? e) tbl = true).
    { apply existsb_exists. exists r. split; [exact Hr|]. apply Z.eqb_eq, Heq. }
    congruence.
Qed.

(** The [UPDATE] only closes rows: a row open afterwards was open before
    and is not the one named. *)
Lemma open_rows_update (e pk : Z) (t : datetime) (tbl : list Movement.t) :
  open_rows e (update_departure_time pk t tbl)
  = filter (fun r => open_for e r && negb (Movement.id r =? pk)) tbl.
Proof.
  unfold open_rows, update_departure_time.
  induction tbl as [|r tbl IH]; simpl; [reflexivity|].
  destruct (Movement.id r =? pk) eqn:Hid; simpl.
  - unfold open_for at 1. simpl. rewrite andb_false_r, andb_false_r.
    exact IH.
  - rewrite andb_true_r. destruct (open_for e r); rewrite IH; reflexivity.
Qed.

Lemma filter_length_le {A} (p q : A -> bool) (l : list A) :
  (forall a, q a = true -> p a = true) ->
  (length (filter q l) <= length (filter p l))%nat.
Proof.
  intros Hpq. induction l as [|a l IH]; simpl; [lia|].
  destruct (q a) eqn:Hq.
  - rewrite (Hpq a Hq). simpl. lia.
  - destruct (p a); simpl; lia.
Qed.

Lemma filter_nil_iff {A} (p : A -> bool) (l : list A) :
  filter p l = [] <-> (forall a, In a l -> p a = false).
Proof.
  induction l as [|a l IH]; simpl.
  - split; [tauto|reflexivity].
  - destruct (p a) eqn:Hp.
    + split; [discriminate|]. intros H.
      rewrite (H a (or_introl eq_refl)) in Hp. discriminate.
    + rewrite IH. split.
      * intros H b [<-|Hb]; auto.
      * intros H b Hb. apply H. right. exact Hb.
Qed.

Lemma open_rows_after_close_other (e e' : Z) (t : datetime)
    (tbl : list Movement.t) :
  (length (open_rows e' (after_close e t tbl)) <= length (open_rows e' tbl))%nat.
Proof.
  unfold after_close. destruct (find (open_for e) tbl) as [m|]; [|lia].
  rewrite open_rows_update. apply filter_length_le.
  intros a Ha. apply andb_true_iff in Ha. tauto.
Qed.

(** Closing the first open row of an elevator that has at most one
    leaves it none. *)
Lemma open_rows_after_close_same (e : Z) (t : datetime)
    (tbl : list Movement.t) :
  (length (open_rows e tbl) <= 1)%nat ->
  open_rows e (after_close e t tbl) = [].
Proof.
  intros Hone. unfold after_close.
  destruct (find (open_for e) tbl) as [m|] eqn:Hfind.
  - rewrite open_rows_update. apply filter_nil_iff.
    destruct (find_first _ _ _ Hfind) as (pre & post & -> & Hm & Hpre).
    unfold open_rows in Hone. rewrite filter_app in Hone. simpl in Hone.
    rewrite Hm, length_app in Hone. simpl in Hone.
    assert (Hpost : filter (open_for e) post = []).
    { destruct (filter (open_for e) post); [reflexivity|simpl in Hone; lia]. }
    rewrite filter_nil_iff in Hpost.
    intros a Ha. apply in_app_or in Ha. destruct Ha as [Ha|[<-|Ha]].
    + rewrite (Hpre a Ha). reflexivity.
    + rewrite Z.eqb_refl. apply andb_false_r.
    + rewrite (Hpost a Ha). reflexivity.
  - apply filter_nil_iff. apply find_none_iff. exact Hfind.
Qed.

(** C2: [log_movement] preserves "at most one open row per elevator",
    and a movement logged without [departure_time] leaves the new row as
    the only open row of its elevator. *)
Theorem log_movement_preserves_one_open
    (db : Database) (clk : Clock) (movement : MovementCreate.t) :
  at_most_one_open (movements db) ->
  exists row s',
    log_movement movement clk (SessionLocal db) = (Return row, s')
    /\ at_most_one_open (movements (file s'))
    /\ (MovementCreate.departure_time movement = None ->
        open_rows (MovementCreate.elevator_id movement) (movements (file s'))
        = [row]).
Proof.
  intros Hinv.
  eexists _, _. split; [apply log_movement_fresh|]. simpl.
  set (e := MovementCreate.elevator_id movement).
  pose proof (open_rows_after_close_same e (py_now clk) _ (Hinv e)) as Hsame.
  split.
  - intros e'. unfold open_rows. rewrite filter_app, length_app.
    destruct (Z.eq_dec e' e) as [->|Hne].
    + fold (open_rows e (after_close e (py_now clk) (movements db))).
      rewrite Hsame. simpl.
      destruct (open_for e _); simpl; lia.
    + simpl. unfold open_for at 2. simpl. fold e.
      destruct (Z.eqb_spec e e') as [Heq|_]; [congruence|]. simpl.
      pose proof (open_rows_after_close_other e e' (py_now clk) (movements db)).
      specialize (Hinv e'). unfold open_rows in *. lia.
  - intros Hdep. unfold open_rows. rewrite filter_app.
    fold (open_rows e (after_close e (py_now clk) (movements db))).
    rewrite Hsame. simpl. unfold open_for. simpl. fold e.
    rewrite Z.eqb_refl, Hdep. reflexivity.
Qed.

Lemma log_movement_preserves_one_open_witness :
  at_most_one_open (movements example_store)
  /\ exists row s',
       log_movement example_request example_clock (SessionLocal example_store)
       = (Return row, s')
       /\ at_most_one_open (movements (file s'))
       /\ open_rows 7 (movements (file s')) = [row].
Proof.
  assert (H : at_most_one_open (movements example_store)).
  { apply at_most_one_openb_correct. vm_compute. reflexivity. }
  split; [exact H|].
  destruct (log_movement_preserves_one_open
              example_store example_clock example_request H)
    as (row & s' & Hrun & Hinv & Hsole).
  exists row, s'. repeat split; trivial. apply Hsole. reflexivity.
Defined.

(** ** The timestamp written when a row is closed *)

(** C3 does not hold of the code, which takes the two ends of one
    stay from two clocks: [arrival_time] is the store's
    [CURRENT_TIMESTAMP] (UTC), [departure_time] is Python's
    [datetime.now()] (local time).  On a server five hours behind UTC, a
    movement logged into the empty store and closed five seconds later is
    stored with a [departure_time] earlier than its [arrival_time]. *)
Lemma log_movement_departure_before_arrival :
  exists row1 s1 row2 s2,
    log_movement (MovementCreate.mk 7 1 5 None) (clock_at 100000 (-18000))
                 (SessionLocal empty_database) = (Return row1, s1)
    /\ log_movement (MovementCreate.mk 7 5 2 None) (clock_at 100005 (-18000))
                    (SessionLocal (file s1)) = (Return row2, s2)
    /\ movements (file s1) = [Movement.mk 1 7 1 5 100000 None]
    /\ movements (file s2) = [Movement.mk 1 7 1 5 100000 (Some 82005);
                              Movement.mk 2 7 5 2 100005 None]
    /\ exists closed_row d,
         In closed_row (movements (file s2))
         /\ Movement.id closed_row = Movement.id row1
         /\ Movement.departure_time closed_row = Some d
         /\ ~ (Movement.arrival_time closed_row <= d).
Proof.
  eexists _, _, _, _.
  split; [apply log_movement_fresh|].
  split; [apply log_movement_fresh|].
  split; [reflexivity|]. split; [reflexivity|].
  exists (Movement.mk 1 7 1 5 100000 (Some 82005)), 82005.
  repeat split.
  - left. reflexivity.
  - simpl. lia.
Qed.

(** What the closing writes: the [departure_time] of the row that
    [log_movement] closes is the [datetime.now()] of that call, and the
    row keeps its [arrival_time]. *)
Theorem log_movement_departure_is_server_time
    (db : Database) (clk : Clock) (movement : MovementCreate.t)
    (pre post : list Movement.t) (m : Movement.t) :
  pk_unique db ->
  movements db = pre ++ m :: post ->
  open_for (MovementCreate.elevator_id movement) m = true ->
  (forall r, In r pre ->
             open_for (MovementCreate.elevator_id movement) r = false) ->
  exists row s' m',
    log_movement movement clk (SessionLocal db) = (Return row, s')
    /\ movements (file s') = pre ++ m' :: post ++ [row]
    /\ Movement.id m' = Movement.id m
    /\ Movement.arrival_time m' = Movement.arrival_time m
    /\ Movement.departure_time m' = Some (py_now clk)
    /\ (Movement.arrival_time m <= py_now clk <->
        exists d, Movement.departure_time m' = Some d
                  /\ Movement.arrival_time m' <= d).
Proof.
  intros Hpk Heq Hm Hpre.
  eexists _, _, (Movement.with_departure_time m (Some (py_now clk))).
  split; [apply log_movement_fresh|]. simpl.
  unfold pk_unique in Hpk. rewrite Heq in *.
  rewrite (after_close_first _ _ pre post m Hpk Hm Hpre), <- app_assoc.
  repeat split.
  - intros Hle. exists (py_now clk). split; [reflexivity|exact Hle].
  - intros (d & [= <-] & Hle). exact Hle.
Qed.

Lemma log_movement_departure_is_server_time_witness :
  pk_unique example_store
  /\ movements example_store = [] ++ example_open_row :: [example_other_row]
  /\ open_for 7 example_open_row = true
  /\ exists row s' m',
       log_movement example_request example_clock (SessionLocal example_store)
       = (Return row, s')
       /\ movements (file s') = m' :: example_other_row :: [row]
       /\ Movement.departure_time m' = Some 200
       /\ Movement.arrival_time m' = 100.
Proof.
  split; [exact pk_unique_example|].
  split; [reflexivity|]. split; [reflexivity|].
  destruct (log_movement_departure_is_server_time
              example_store example_clock example_request
              [] [example_other_row] example_open_row
              pk_unique_example eq_refl eq_refl
              (fun r (H : In r []) => match H with end))
    as (row & s' & m' & Hrun & Htbl & _ & Harr & Hdep & _).
  exists row, s', m'. repeat split; assumption.
Defined.

(** ** Frame: what [log_movement] leaves alone *)

Lemma nth_error_first_open (e : Z) (pre post : list Movement.t)
    (m : Movement.t) (j : nat) (r : Movement.t) :
  (forall r, In r pre -> open_for e r = false) ->
  (j < length pre)%nat -> nth_error (pre ++ m :: post) j = Some r ->
  open_for e r = false.
Proof.
  intros Hpre Hj Hnth. rewrite nth_error_app1 in Hnth by exact Hj.
  apply Hpre. exact (nth_error_In _ _ Hnth).
Qed.

(** Every old row keeps its position and all fields but, for the first
    open row of the elevator, [departure_time]. *)
Lemma log_movement_frame_pointwise (e : Z) (t : datetime)
    (tbl : list Movement.t) (row : Movement.t) (i : nat) (r : Movement.t) :
  NoDup (map Movement.id tbl) ->
  nth_error tbl i = Some r ->
  nth_error (after_close e t tbl ++ [row]) i = Some r
  \/ (nth_error (after_close e t tbl ++ [row]) i
      = Some (Movement.with_departure_time r (Some t))
      /\ open_for e r = true
      /\ (forall j r0, (j < i)%nat -> nth_error tbl j = Some r0 ->
                       open_for e r0 = false)).
Proof.
  intros Hnd Hnth.
  assert (Hi : (i < length tbl)%nat) by (apply nth_error_Some; congruence).
  unfold after_close.
  destruct (find (open_for e) tbl) as [m|] eqn:Hfind.
  - rewrite nth_error_app1
      by (unfold update_departure_time; rewrite length_map; exact Hi).
    unfold update_departure_time. rewrite nth_error_map, Hnth. simpl.
    destruct (Z.eqb_spec (Movement.id r) (Movement.id m)) as [Hid|_];
      [right|left; reflexivity].
    split; [reflexivity|].
    destruct (find_first _ _ _ Hfind) as (pre & post & -> & Hm & Hpre).
    assert (Hpos : i = length pre).
    { apply (proj1 (NoDup_nth_error (map Movement.id (pre ++ m :: post))) Hnd).
      - rewrite length_map. exact Hi.
      - rewrite !nth_error_map, Hnth, nth_error_app2 by lia.
        rewrite Nat.sub_diag. simpl. f_equal. exact Hid. }
    subst i. rewrite nth_error_app2, Nat.sub_diag in Hnth by lia.
    simpl in Hnth. injection Hnth as <-.
    split; [exact Hm|].
    intros j r0 Hj Hr0. exact (nth_error_first_open e pre post m j r0 Hpre Hj Hr0).
  - left. rewrite nth_error_app1 by exact Hi. exact Hnth.
Qed.

(** C10: [log_movement] changes, among the rows that were there, at
    most one, and of that row only [departure_time]: every old row is
    found again at its position, either identical or, if it is the first
    open row of the elevator in scan order, with [departure_time] set to
    the server's current time and [id], [elevator_id], [start_floor],
    [end_floor], [arrival_time] as before; two positions that differ
    from before are the same position. *)
Theorem log_movement_frame
    (db : Database) (clk : Clock) (movement : MovementCreate.t) :
  pk_unique db ->
  let e := MovementCreate.elevator_id movement in
  exists row s',
    log_movement movement clk (SessionLocal db) = (Return row, s')
    /\ (forall i r,
          nth_error (movements db) i = Some r ->
          exists r',
            nth_error (movements (file s')) i = Some r'
            /\ Movement.id r' = Movement.id r
            /\ Movement.elevator_id r' = Movement.elevator_id r
            /\ Movement.start_floor r' = Movement.start_floor r
            /\ Movement.end_floor r' = Movement.end_floor r
            /\ Movement.arrival_time r' = Movement.arrival_time r
            /\ (r' = r
                \/ (r' = Movement.with_departure_time r (Some (py_now clk))
                    /\ open_for e r = true
                    /\ (forall j r0, (j < i)%nat ->
                                     nth_error (movements db) j = Some r0 ->
                                     open_for e r0 = false))))
    /\ (forall i j ri rj,
          nth_error (movements db) i = Some ri ->
          nth_error (movements db) j = Some rj ->
          nth_error (movements (file s')) i <> Some ri ->
          nth_error (movements (file s')) j <> Some rj ->
          i = j).
Proof.
  intros Hpk e.
  eexists _, _. split; [apply log_movement_fresh|]. simpl. fold e.
  set (row := inserted_row movement clk (movements db)).
  pose proof (fun i r => log_movement_frame_pointwise
                           e (py_now clk) (movements db) row i r Hpk) as Hpt.
  split.
  - intros i r Hnth. destruct (Hpt i r Hnth) as [Hsame|(Hchg & Hopen & Hbefore)].
    + exists r. repeat split; trivial. left. reflexivity.
    + exists (Movement.with_departure_time r (Some (py_now clk))).
      repeat split; trivial. right. repeat split; trivial.
  - intros i j ri rj Hi Hj Hci Hcj.
    destruct (Hpt i ri Hi) as [Hsame|(_ & Hopen_i & Hbefore_i)]; [congruence|].
    destruct (Hpt j rj Hj) as [Hsame|(_ & Hopen_j & Hbefore_j)]; [congruence|].
    destruct (Nat.lt_total i j) as [Hlt|[Heq|Hlt]]; [|exact Heq|].
    + rewrite (Hbefore_j i ri Hlt Hi) in Hopen_i. discriminate.
    + rewrite (Hbefore_i j rj Hlt Hj) in Hopen_j. discriminate.
Qed.

Lemma log_movement_frame_witness :
  pk_unique example_store
  /\ exists row s',
       log_movement example_request example_clock (SessionLocal example_store)
       = (Return row, s')
       /\ nth_error (movements (file s')) 0
          = Some (Movement.mk 1 7 1 5 100 (Some 200))
       /\ nth_error (movements (file s')) 1 = Some example_other_row.
Proof.
  split; [exact pk_unique_example|].
  destruct (log_movement_frame example_store example_clock example_request
              pk_unique_example) as (row & s' & Hrun & _ & _).
  exists row, s'. split; [exact Hrun|].
  rewrite log_movement_fresh in Hrun. injection Hrun as _ <-.
  split; reflexivity.
Defined.

(** ** References to elevators that do not exist *)

(** C8: a movement whose [elevator_id] names no row of [elevators] is
    logged like any other: the call returns the new row, which is in the
    table and carries that [elevator_id]; had an elevator with that id
    been registered, the returned row and the table would be the same. *)
Theorem log_movement_accepts_unknown_elevator
    (db : Database) (clk : Clock) (movement : MovementCreate.t) :
  elevator_exists (MovementCreate.elevator_id movement) db = false ->
  exists row s',
    log_movement movement clk (SessionLocal db) = (Return row, s')
    /\ In row (movements (file s'))
    /\ Movement.elevator_id row = MovementCreate.elevator_id movement
    /\ forall elevator,
         Elevator.id elevator = MovementCreate.elevator_id movement ->
         exists s'',
           log_movement movement clk
             (SessionLocal (mkDatabase (elevators db ++ [elevator])
                                       (movements db)))
           = (Return row, s'')
           /\ movements (file s'') = movements (file s').
Proof.
  intros _.
  eexists _, _. split; [apply log_movement_fresh|]. simpl.
  split; [apply in_or_app; right; left; reflexivity|].
  split; [reflexivity|].
  intros elevator _.
  eexists. split; [rewrite log_movement_fresh; reflexivity|]. reflexivity.
Qed.

Lemma log_movement_accepts_unknown_elevator_witness :
  elevator_exists 7 example_store = false
  /\ exists row s',
       log_movement example_request example_clock (SessionLocal example_store)
       = (Return row, s')
       /\ In row (movements (file s'))
       /\ Movement.elevator_id row = 7.
Proof.
  split; [reflexivity|].
  destruct (log_movement_accepts_unknown_elevator
              example_store example_clock example_request eq_refl)
    as (row & s' & Hrun & Hin & Heid & _).
  exists row, s'. repeat split; assumption.
Defined.

(** The check the module leaves off: under an engine that enforces
    foreign keys the same call is rejected by the store. *)
Remark log_movement_with_foreign_keys_on :
  exists s',
    log_movement example_request example_clock
      (mkSession (mkEngine DATABASE_URL true) example_store [] [] false)
    = (Raise IntegrityError, s').
Proof. eexists. vm_compute. reflexivity. Qed.

(** ** Listings *)

(** C6: [get_resting_elevators] returns, whatever the time, the rows
    whose [departure_time] is null and only those, and changes nothing. *)
Theorem get_resting_elevators_exact (s : Session) :
  exists rows,
    forall clk,
      get_resting_elevators clk s = (Return rows, s)
      /\ forall r, In r rows <->
                   In r (movements (file s))
                   /\ Movement.departure_time r = None.
Proof.
  exists (filter (fun r => is_None (Movement.departure_time r))
                 (movements (file s))).
  intros clk. split; [reflexivity|].
  intros r. rewrite filter_In.
  destruct (Movement.departure_time r); simpl; intuition congruence.
Qed.

(** The scenario of the specification: register an elevator, log a
    movement, log a second one, list the resting elevators. *)
Example resting_after_two_movements :
  exists a s0 x s1 y s2,
    create_elevator (ElevatorCreate.mk "A" "Lobby") (mkClock 10 10)
                    (SessionLocal empty_database) = (Return a, s0)
    /\ Elevator.id a = 1
    /\ log_movement (MovementCreate.mk 1 1 5 None) (mkClock 20 20)
                    (SessionLocal (file s0)) = (Return x, s1)
    /\ Movement.departure_time x = None
    /\ log_movement (MovementCreate.mk 1 5 2 None) (mkClock 30 30)
                    (SessionLocal (file s1)) = (Return y, s2)
    /\ movements (file s2) = [Movement.with_departure_time x (Some 30); y]
    /\ get_resting_elevators (mkClock 40 40) (SessionLocal (file s2))
       = (Return [y], SessionLocal (file s2)).
Proof.
  eexists _, _, _, _, _, _.
  split; [vm_compute; reflexivity|]. split; [reflexivity|].
  split; [apply log_movement_fresh|]. split; [reflexivity|].
  split; [apply log_movement_fresh|]. split; reflexivity.
Qed.

(** The body of the second [get_movements], once it has [eid]: it
    returns the rows whose [elevator_id] is [eid] and only those, and the
    list is empty exactly when no row has that [elevator_id]. *)
Theorem get_movements_for_elevator_exact (eid : Z) (clk : Clock) (s : Session) :
  exists rows,
    get_movements' eid clk s = (Return rows, s)
    /\ (forall r, In r rows <->
                  In r (movements (file s)) /\ Movement.elevator_id r = eid)
    /\ (rows = [] <->
        forall r, In r (movements (file s)) -> Movement.elevator_id r <> eid).
Proof.
  exists (filter (fun r => Movement.elevator_id r =? eid) (movements (file s))).
  split; [reflexivity|]. split.
  - intros r. rewrite filter_In, Z.eqb_eq. reflexivity.
  - rewrite filter_nil_iff. split; intros H r Hr.
    + apply Z.eqb_neq, H, Hr.
    + apply Z.eqb_neq, H, Hr.
Qed.

(** ** The session is released *)

Lemma get_db_resumed_closes (store : Database) (r : resume) (s : Session) :
  exists out,
    get_db store r AtYield (Some s) = (out, Finished, Some (close s)).
Proof. destruct r; eexists; reflexivity. Qed.

(** C9: whatever the handler does with the session it was given,
    return a value or raise, the request ends with that same outcome and
    with the session closed: the generator, suspended at its [yield], is
    finished by either resumption through [db.close()]. *)
Theorem get_db_always_closes {A : Type} (handler : M A) (clk : Clock)
    (store : Database) :
  exists out s1,
    handler clk (SessionLocal store) = (out, s1)
    /\ handle_request handler clk store = (out, Some (close s1))
    /\ closed (close s1) = true
    /\ forall r,
         snd (get_db store r AtYield (Some s1)) = Some (close s1)
         /\ snd (fst (get_db store r AtYield (Some s1))) = Finished.
Proof.
  unfold handle_request. simpl.
  destruct (handler clk (SessionLocal store)) as [[a|e] s1];
    eexists _, s1; (split; [reflexivity|]); (split; [reflexivity|]);
    (split; [reflexivity|]); intros [|e']; split; reflexivity.
Qed.

(** ** Grouping *)

Lemma same_group_key (a b : Movement.t) :
  same_group a b = true <-> row_key a = row_key b.
Proof.
  unfold same_group, row_key. rewrite andb_true_iff, !Z.eqb_eq.
  split; [intros [-> ->]; reflexivity|intros [= -> ->]; split; reflexivity].
Qed.

Lemma group_by_snoc (rows : list Movement.t) (r : Movement.t) :
  group_by (rows ++ [r]) = group_add r (group_by rows).
Proof. unfold group_by. rewrite fold_left_app. reflexivity. Qed.

Lemma sumZ_cons (a : Z) (l : list Z) : sumZ (a :: l) = a + sumZ l.
Proof. reflexivity. Qed.

Lemma sumZ_perm (l1 l2 : list Z) : Permutation l1 l2 -> sumZ l1 = sumZ l2.
Proof. induction 1; simpl; lia. Qed.

Lemma group_add_size (r : Movement.t) (gs : list Group) :
  sumZ (map group_size (group_add r gs)) = sumZ (map group_size gs) + 1.
Proof.
  induction gs as [|[r0 g] gs IH]; [reflexivity|].
  cbn [group_add]. destruct (same_group r0 r); cbn [map]; rewrite !sumZ_cons.
  - unfold group_size, group_rows. cbn [fst snd length].
    rewrite length_app. cbn [length]. lia.
  - rewrite IH. lia.
Qed.

Lemma group_by_size (rows : list Movement.t) :
  sumZ (map group_size (group_by rows)) = Z.of_nat (length rows).
Proof.
  induction rows as [|r rows IH] using rev_ind; [reflexivity|].
  rewrite group_by_snoc, group_add_size, IH, length_app. simpl. lia.
Qed.

(** A row joins the group of its pair, or opens a new last group. *)
Lemma group_add_keys (r : Movement.t) (gs : list Group) :
  map group_key (group_add r gs)
  = if existsb (fun g => same_group (fst g) r) gs
    then map group_key gs
    else map group_key gs ++ [row_key r].
Proof.
  induction gs as [|[r0 g] gs IH]; simpl; [reflexivity|].
  destruct (same_group r0 r); simpl; [reflexivity|].
  rewrite IH.
  destruct (existsb (fun g => same_group (fst g) r) gs); reflexivity.
Qed.

Lemma group_by_keys_NoDup (rows : list Movement.t) :
  NoDup (map group_key (group_by rows)).
Proof.
  induction rows as [|r rows IH] using rev_ind; [constructor|].
  rewrite group_by_snoc, group_add_keys.
  destruct (existsb (fun g => same_group (fst g) r) (group_by rows)) eqn:Hex;
    [exact IH|].
  apply NoDup_snoc; [exact IH|].
  intros Hin. apply in_map_iff in Hin. destruct Hin as (g & Hkey & Hg).
  assert (Ht : existsb (fun g => same_group (fst g) r) (group_by rows) = true).
  { apply existsb_exists. exists g. split; [exact Hg|].
    apply same_group_key. exact Hkey. }
  congruence.
Qed.

Lemma group_add_members (r : Movement.t) (gs : list Group) (g : Group)
    (x : Movement.t) :
  In g (group_add r gs) -> In x (group_rows g) ->
  (x = r /\ same_group (fst g) r = true)
  \/ exists g0, In g0 gs /\ fst g0 = fst g /\ In x (group_rows g0).
Proof.
  induction gs as [|[r0 g0] gs IH]; simpl.
  - intros [<-|[]]. simpl. intros [<-|[]]. left. split; [reflexivity|].
    apply same_group_key. reflexivity.
  - destruct (same_group r0 r) eqn:Hsg; simpl.
    + intros [<-|Hg]; simpl.
      * intros [<-|Hx].
        -- right. exists (r0, g0). simpl. tauto.
        -- apply in_app_or in Hx. destruct Hx as [Hx|[<-|[]]].
           ++ right. exists (r0, g0). simpl. tauto.
           ++ left. tauto.
      * intros Hx. right. exists g. tauto.
    + intros [<-|Hg] Hx.
      * right. exists (r0, g0). tauto.
      * destruct (IH Hg Hx) as [H|(g1 & Hg1 & Hfst & Hx1)]; [left; exact H|].
        right. exists g1. tauto.
Qed.

(** Every row of a group is one of the grouped rows and has the pair of
    the group. *)
Lemma group_by_members (rows : list Movement.t) (g : Group) (x : Movement.t) :
  In g (group_by rows) -> In x (group_rows g) ->
  In x rows /\ row_key x = group_key g.
Proof.
  revert g x. induction rows as [|r rows IH] using rev_ind; intros g x.
  - intros [].
  - rewrite group_by_snoc. intros Hg Hx.
    destruct (group_add_members r _ g x Hg Hx)
      as [[-> Hsg]|(g0 & Hg0 & Hfst & Hx0)].
    + split; [apply in_or_app; right; left; reflexivity|].
      symmetry. apply same_group_key. exact Hsg.
    + destruct (IH g0 x Hg0 Hx0) as [Hin Hkey].
      split; [apply in_or_app; left; exact Hin|].
      rewrite Hkey. unfold group_key. rewrite Hfst. reflexivity.
Qed.

Lemma group_add_covers (r : Movement.t) (gs : list Group) :
  In (row_key r) (map group_key (group_add r gs))
  /\ forall k, In k (map group_key gs) -> In k (map group_key (group_add r gs)).
Proof.
  rewrite group_add_keys.
  destruct (existsb (fun g => same_group (fst g) r) gs) eqn:Hex.
  - split; [|tauto].
    apply existsb_exists in Hex. destruct Hex as (g & Hg & Hsg).
    apply in_map_iff. exists g. split; [|exact Hg].
    exact (proj1 (same_group_key (fst g) r) Hsg).
  - split; [apply in_or_app; right; left; reflexivity|].
    intros k Hk. apply in_or_app. left. exact Hk.
Qed.

(** The groups stand for exactly the pairs that occur. *)
Lemma group_by_keys (rows : list Movement.t) (k : Z * Z) :
  In k (map group_key (group_by rows)) <->
  exists r, In r rows /\ row_key r = k.
Proof.
  split.
  - intros Hin. apply in_map_iff in Hin. destruct Hin as (g & <- & Hg).
    exists (fst g).
    destruct (group_by_members rows g (fst g) Hg (or_introl eq_refl))
      as [Hin Hkey].
    split; [exact Hin|exact Hkey].
  - induction rows as [|r rows IH] using rev_ind; intros (x & Hx & Hk).
    + destruct Hx.
    + rewrite group_by_snoc.
      destruct (group_add_covers r (group_by rows)) as [Hnew Hold].
      apply in_app_or in Hx. destruct Hx as [Hx|[<-|[]]].
      * apply Hold, IH. exists x. tauto.
      * rewrite <- Hk. exact Hnew.
Qed.

(** ** The report *)

(** A comprehension whose body returns everywhere is a [map]. *)
Lemma mapM_pure {A B} (f : A -> M B) (g : A -> B) (l : list A)
    (clk : Clock) (s : Session) :
  (forall a, In a l -> f a clk s = (Return (g a), s)) ->
  mapM f l clk s = (Return (map g l), s).
Proof.
  induction l as [|a l IH]; intros Hall; [reflexivity|].
  cbn [mapM map]. unfold bind.
  rewrite (Hall a (or_introl eq_refl)).
  rewrite IH; [reflexivity|].
  intros a' Ha'. apply Hall. right. exact Ha'.
Qed.

Section Report.
Context `{GroupBySemantics}.

Lemma group_of_demand (s : Session) (g : Group) :
  In g (group_order (group_by (filter is_closed (movements (file s))))) ->
  In g (group_by (filter is_closed (movements (file s)))).
Proof. apply Permutation_in, group_order_perm. Qed.

(** The row that supplies the bare columns of a group is a closed row
    of the table with the pair of the group. *)
Lemma bare_row_closed (s : Session) (g : Group) :
  In g (group_by (filter is_closed (movements (file s)))) ->
  let rep := bare_row (fst g) (snd g) in
  In rep (movements (file s))
  /\ row_key rep = group_key g
  /\ exists d, Movement.departure_time rep = Some d.
Proof.
  intros Hg rep.
  destruct (group_by_members _ g rep Hg (bare_row_In (fst g) (snd g)))
    as [Hin Hkey].
  apply filter_In in Hin. destruct Hin as [Hin Hclosed].
  repeat split; trivial.
  unfold is_closed in Hclosed.
  destruct (Movement.departure_time rep) as [d|]; [|discriminate].
  exists d. reflexivity.
Qed.

Lemma elapsed_comprehension (clk : Clock) (s : Session)
    (l : list DemandRow) :
  (forall d, In d l -> d3 d <> None) ->
  mapM (fun d =>
          dt <- lift (datetime_sub (d3 d) (d2 d)) ;;
          ret (ElapsedEntry.mk (d0 d) (d1 d) (d5 d) dt)) l clk s
  = (Return (map elapsed_entry l), s).
Proof.
  intros Hall. apply mapM_pure. intros d Hd.
  unfold bind, lift, datetime_sub, ret, elapsed_entry.
  destruct (d3 d) as [t|] eqn:Hd3; [reflexivity|].
  exfalso. exact (Hall d Hd Hd3).
Qed.

Lemma demand_departure_not_null (s : Session) (d : DemandRow) :
  In d (demand_of s) -> d3 d <> None.
Proof.
  unfold demand_of. intros Hd. apply in_map_iff in Hd.
  destruct Hd as (g & <- & Hg).
  destruct (bare_row_closed s g (group_of_demand s g Hg))
    as (_ & _ & d & Hdep).
  simpl. congruence.
Qed.

Lemma training_counts (s : Session) :
  map TrainingEntry.count (map training_entry (demand_of s))
  = map group_size
        (group_order (group_by (filter is_closed (movements (file s))))).
Proof. unfold demand_of. rewrite !map_map. reflexivity. Qed.

Lemma training_keys (s : Session) :
  map (fun t => (TrainingEntry.requested_floor t,
                 TrainingEntry.destination_floor t))
      (map training_entry (demand_of s))
  = map group_key
        (group_order (group_by (filter is_closed (movements (file s))))).
Proof. unfold demand_of. rewrite !map_map. reflexivity. Qed.

(** [get_ml_data] always returns, and does not write. *)
Lemma get_ml_data_run (clk : Clock) (s : Session) :
  get_ml_data clk s
  = (Return (mkMlData (map training_entry (demand_of s))
                      (map elapsed_entry (demand_of s))), s).
Proof.
  unfold get_ml_data. unfold bind at 1. unfold query_demand.
  fold (demand_of s). unfold bind at 1.
  rewrite (elapsed_comprehension clk s (demand_of s)
             (demand_departure_not_null s)).
  reflexivity.
Qed.
End Report.

(** C4: the counts of [training_data] add up to the number of rows
    whose [departure_time] is not null; there is one entry per pair
    [(start_floor, end_floor)], for exactly the pairs of those rows. *)
Theorem training_counts_sum_to_closed_rows `{GroupBySemantics}
    (clk : Clock) (s : Session) :
  exists data,
    get_ml_data clk s = (Return data, s)
    /\ sumZ (map TrainingEntry.count (training_data data))
       = Z.of_nat (length (filter is_closed (movements (file s))))
    /\ NoDup (map (fun t => (TrainingEntry.requested_floor t,
                             TrainingEntry.destination_floor t))
                  (training_data data))
    /\ forall k,
         In k (map (fun t => (TrainingEntry.requested_floor t,
                              TrainingEntry.destination_floor t))
                   (training_data data))
         <-> exists r, In r (movements (file s))
                       /\ Movement.departure_time r <> None
                       /\ row_key r = k.
Proof.
  eexists. split; [apply get_ml_data_run|]. cbn [training_data].
  rewrite training_counts, training_keys.
  set (rows := filter is_closed (movements (file s))).
  pose proof (group_order_perm (group_by rows)) as Hperm.
  repeat split.
  - rewrite (sumZ_perm _ _ (Permutation_map group_size Hperm)).
    apply group_by_size.
  - apply (Permutation_NoDup
             (Permutation_sym (Permutation_map group_key Hperm))).
    apply group_by_keys_NoDup.
  - intros Hin.
    apply (Permutation_in _ (Permutation_map group_key Hperm)) in Hin.
    apply group_by_keys in Hin. destruct Hin as (r & Hr & Hk).
    apply filter_In in Hr. destruct Hr as [Hr Hclosed].
    exists r. repeat split; trivial.
    unfold is_closed in Hclosed.
    destruct (Movement.departure_time r); [discriminate|discriminate].
  - intros (r & Hr & Hdep & Hk).
    apply (Permutation_in _ (Permutation_sym (Permutation_map group_key Hperm))).
    apply group_by_keys. exists r. split; [|exact Hk].
    apply filter_In. split; [exact Hr|].
    unfold is_closed. destruct (Movement.departure_time r); [reflexivity|].
    congruence.
Qed.

(** C5: [elapsed_data] has one entry per entry of [training_data], at
    the same position and for the same pair of floors; its elapsed time
    is [departure_time - arrival_time] of a single closed row of the
    table that has this pair, the row whose [elevator_id] the entry
    carries. *)
Theorem elapsed_data_one_row_per_group `{GroupBySemantics}
    (clk : Clock) (s : Session) :
  exists data,
    get_ml_data clk s = (Return data, s)
    /\ length (elapsed_data data) = length (training_data data)
    /\ forall i t,
         nth_error (training_data data) i = Some t ->
         exists el rep d,
           nth_error (elapsed_data data) i = Some el
           /\ ElapsedEntry.start_floor el = TrainingEntry.requested_floor t
           /\ ElapsedEntry.end_floor el = TrainingEntry.destination_floor t
           /\ In rep (movements (file s))
           /\ Movement.start_floor rep = ElapsedEntry.start_floor el
           /\ Movement.end_floor rep = ElapsedEntry.end_floor el
           /\ Movement.departure_time rep = Some d
           /\ ElapsedEntry.elevator_id el = Movement.elevator_id rep
           /\ ElapsedEntry.elapsed_time_secs el
              = d - Movement.arrival_time rep.
Proof.
  eexists. split; [apply get_ml_data_run|]. cbn [training_data elapsed_data].
  split; [rewrite !length_map; reflexivity|].
  intros i t Hnth. rewrite nth_error_map in Hnth.
  destruct (nth_error (demand_of s) i) as [dr|] eqn:Hdr; [|discriminate].
  injection Hnth as <-.
  pose proof (nth_error_In _ _ Hdr) as Hin.
  unfold demand_of in Hin. apply in_map_iff in Hin.
  destruct Hin as (g & <- & Hg).
  destruct (bare_row_closed s g (group_of_demand s g Hg))
    as (Hrep & Hkey & d & Hdep).
  exists (elapsed_entry (demand_row g)), (bare_row (fst g) (snd g)), d.
  rewrite nth_error_map, Hdr.
  injection Hkey as Hsf Hef.
  unfold elapsed_entry. cbn. rewrite Hdep.
  repeat split; trivial.
Qed.

(** Two closed rows of the pair (1, 5), with elapsed times 10 and 30, one
    closed row of the pair (2, 3) and an open row: the entry of the first
    pair counts 2 and shows the elapsed time of one of its rows. *)
Example get_ml_data_on_a_small_store :
  let tbl := [Movement.mk 1 7 1 5 10 (Some 20);
              Movement.mk 2 8 1 5 30 (Some 60);
              Movement.mk 3 7 2 3 5 (Some 6);
              Movement.mk 4 8 5 0 70 None] in
  let s := SessionLocal (mkDatabase [] tbl) in
  get_ml_data example_clock s
  = (Return (mkMlData [TrainingEntry.mk 1 5 2; TrainingEntry.mk 2 3 1]
                      [ElapsedEntry.mk 1 5 8 30; ElapsedEntry.mk 2 3 7 1]),
     s).
Proof. vm_compute. reflexivity. Qed.

(** * Further properties of the handlers *)

(** ** Registering elevators *)

Lemma next_rowid_pos (ids : list Z) : 1 <= next_rowid ids.
Proof.
  unfold next_rowid.
  assert (H : 0 <= fold_right Z.max 0 ids).
  { induction ids as [|a l IH]; cbn [fold_right]; lia. }
  lia.
Qed.

(** The id after a fresh id is its successor. *)
Lemma next_rowid_snoc (ids : list Z) :
  next_rowid (ids ++ [next_rowid ids]) = next_rowid ids + 1.
Proof.
  assert (H : forall l a, (forall i, In i l -> i < a) -> 0 <= a ->
                          fold_right Z.max 0 (l ++ [a]) = a).
  { induction l as [|i l IH]; intros a Hlt Ha; cbn [app fold_right]; [lia|].
    rewrite IH; [|intros j Hj; apply Hlt; right; exact Hj|exact Ha].
    specialize (Hlt i (or_introl eq_refl)). lia. }
  unfold next_rowid at 1. rewrite H; [lia| |].
  - intros i Hi. apply next_rowid_gt, Hi.
  - pose proof (next_rowid_pos ids). lia.
Qed.

Lemma find_fresh_elevator (els : list Elevator.t) (e : Elevator.t) :
  (forall x, In x els -> Elevator.id x < Elevator.id e) ->
  find (fun x => Elevator.id x =? Elevator.id e) (els ++ [e]) = Some e.
Proof.
  induction els as [|x els IH]; simpl; intros Hlt.
  - rewrite Z.eqb_refl. reflexivity.
  - destruct (Z.eqb_spec (Elevator.id x) (Elevator.id e)) as [Heq|_].
    + specialize (Hlt x (or_introl eq_refl)). lia.
    + apply IH. intros y Hy. apply Hlt. right. exact Hy.
Qed.

Lemma inserted_elevator_fresh (elevator : ElevatorCreate.t)
    (els : list Elevator.t) (x : Elevator.t) :
  In x els -> Elevator.id x < Elevator.id (inserted_elevator elevator els).
Proof. intros Hx. simpl. apply next_rowid_gt, in_map, Hx. Qed.

Lemma create_elevator_run (elevator : ElevatorCreate.t) (clk : Clock)
    (s : Session) :
  new s = [] -> dirty s = [] ->
  create_elevator elevator clk s
  = (Return (inserted_elevator elevator (elevators (file s))),
     mkSession (bind_engine s)
       (mkDatabase
          (elevators (file s)
           ++ [inserted_elevator elevator (elevators (file s))])
          (movements (file s)))
       [] [] (closed s)).
Proof.
  intros Hnew Hdirty.
  destruct s as [eng [els tbl] nw dt cl]. simpl in *. subst.
  unfold create_elevator, bind, add, commit, the_key, ret, refresh_elevator.
  simpl.
  change (Elevator.mk (next_rowid (map Elevator.id els)) _ _)
    with (inserted_elevator elevator els).
  change (next_rowid (map Elevator.id els))
    with (Elevator.id (inserted_elevator elevator els)).
  rewrite (find_fresh_elevator els (inserted_elevator elevator els)
             (inserted_elevator_fresh elevator els)).
  reflexivity.
Qed.

(** In range, [next_rowid] is SQLite's rule: 1 in an empty table, else
    the successor of the largest rowid in use, itself a rowid. *)
Lemma next_rowid_in_range (ids : list Z) :
  rowids_in_range ids ->
  1 <= next_rowid ids <= max_rowid
  /\ (ids = [] -> next_rowid ids = 1)
  /\ (ids <> [] ->
      exists i, In i ids /\ next_rowid ids = i + 1
                /\ forall j, In j ids -> j <= i).
Proof.
  intros Hr.
  assert (Hmax : ids <> [] ->
                 In (fold_right Z.max 0 ids) ids
                 /\ forall j, In j ids -> j <= fold_right Z.max 0 ids).
  { clear - Hr. induction ids as [|a l IH]; intros Hne; [congruence|].
    assert (Ha : 1 <= a < max_rowid) by (apply Hr; left; reflexivity).
    destruct l as [|b l].
    - cbn [fold_right]. split.
      + left. lia.
      + intros j [<-|[]]. lia.
    - destruct IH as [Hin Hle]; [|discriminate|].
      { intros i Hi. apply Hr. right. exact Hi. }
      change (fold_right Z.max 0 (a :: b :: l))
        with (Z.max a (fold_right Z.max 0 (b :: l))).
      remember (fold_right Z.max 0 (b :: l)) as m eqn:Em. split.
      + destruct (Z.max_spec a m) as [[_ ->]|[_ ->]];
          [right; exact Hin|left; reflexivity].
      + intros j [<-|Hj]; [lia|]. specialize (Hle j Hj). lia. }
  destruct ids as [|a l].
  - unfold next_rowid, max_rowid. cbn [fold_right].
    split; [lia|]. split; [reflexivity|congruence].
  - destruct Hmax as [Hin Hle]; [discriminate|].
    pose proof (Hr _ Hin) as Hm. unfold next_rowid.
    split; [lia|]. split; [discriminate|].
    intros _. exists (fold_right Z.max 0 (a :: l)).
    split; [exact Hin|]. split; [lia|exact Hle].
Qed.

(** X1: on a store whose elevator ids are positive and below the
    largest rowid, [create_elevator] returns a row with the submitted
    [name] and [location] and the [id] SQLite assigns: 1 in an empty
    table, otherwise one more than the largest [id] in use, and again a
    rowid.  It appends that row to [elevators], leaves [movements] alone
    and leaves nothing pending. *)
Theorem create_elevator_appends_fresh_row
    (db : Database) (clk : Clock) (elevator : ElevatorCreate.t) :
  rowids_in_range (map Elevator.id (elevators db)) ->
  exists row s',
    create_elevator elevator clk (SessionLocal db) = (Return row, s')
    /\ Elevator.name row = ElevatorCreate.name elevator
    /\ Elevator.location row = ElevatorCreate.location elevator
    /\ 1 <= Elevator.id row <= max_rowid
    /\ (forall x, In x (elevators db) -> Elevator.id x < Elevator.id row)
    /\ (elevators db = [] -> Elevator.id row = 1)
    /\ (elevators db <> [] ->
        exists x, In x (elevators db)
                  /\ Elevator.id row = Elevator.id x + 1)
    /\ elevators (file s') = elevators db ++ [row]
    /\ movements (file s') = movements db
    /\ new s' = [] /\ dirty s' = [].
Proof.
  intros Hrange.
  destruct (next_rowid_in_range _ Hrange) as (Hbounds & Hempty & Hmax).
  eexists _, _.
  split; [apply (create_elevator_run elevator clk (SessionLocal db));
          reflexivity|].
  cbn [file elevators movements new dirty SessionLocal].
  unfold inserted_elevator. cbn [Elevator.id Elevator.name Elevator.location].
  split; [reflexivity|]. split; [reflexivity|]. split; [exact Hbounds|].
  split; [intros x Hx; apply next_rowid_gt, in_map, Hx|].
  split; [intros Hnil; apply Hempty; rewrite Hnil; reflexivity|].
  split; [|repeat split].
  intros Hne. destruct Hmax as (i & Hi & Hnext & _).
  { intros Hnil. apply map_eq_nil in Hnil. contradiction. }
  apply in_map_iff in Hi. destruct Hi as (x & <- & Hx).
  exists x. split; assumption.
Qed.

Lemma create_elevator_appends_fresh_row_witness :
  rowids_in_range (map Elevator.id [Elevator.mk 1 "A" "Lobby"])
  /\ exists row s',
       create_elevator (ElevatorCreate.mk "B" "Tower") example_clock
         (SessionLocal (mkDatabase [Elevator.mk 1 "A" "Lobby"] []))
       = (Return row, s')
       /\ Elevator.id row = 2
       /\ elevators (file s') = [Elevator.mk 1 "A" "Lobby"; row].
Proof.
  assert (Hr : rowids_in_range (map Elevator.id [Elevator.mk 1 "A" "Lobby"])).
  { intros i [<-|[]]. unfold max_rowid. cbn. lia. }
  split; [exact Hr|].
  destruct (create_elevator_appends_fresh_row
              (mkDatabase [Elevator.mk 1 "A" "Lobby"] []) example_clock
              (ElevatorCreate.mk "B" "Tower") Hr)
    as (row & s' & Hrun & _ & _ & _ & _ & _ & Hnext & Happ & _).
  exists row, s'. split; [exact Hrun|]. split; [|exact Happ].
  destruct Hnext as (x & [<-|[]] & Hid); [discriminate|]. exact Hid.
Defined.

(** X2: names and locations need not be unique: registering the same
    elevator twice gives two rows with the same [name] and [location]
    and with consecutive, hence different, ids, and both are stored. *)
Theorem create_elevator_twice
    (db : Database) (clk1 clk2 : Clock) (elevator : ElevatorCreate.t) :
  exists r1 s1 r2 s2,
    create_elevator elevator clk1 (SessionLocal db) = (Return r1, s1)
    /\ create_elevator elevator clk2 (SessionLocal (file s1)) = (Return r2, s2)
    /\ Elevator.name r1 = Elevator.name r2
    /\ Elevator.location r1 = Elevator.location r2
    /\ Elevator.id r2 = Elevator.id r1 + 1
    /\ elevators (file s2) = elevators db ++ [r1; r2].
Proof.
  eexists _, _, _, _.
  split; [apply (create_elevator_run elevator clk1 (SessionLocal db));
          reflexivity|].
  split; [apply (create_elevator_run elevator clk2); reflexivity|].
  cbn [file elevators SessionLocal].
  split; [reflexivity|]. split; [reflexivity|].
  split; [|rewrite <- app_assoc; reflexivity].
  unfold inserted_elevator. cbn [Elevator.id]. rewrite map_app. cbn [map].
  apply next_rowid_snoc.
Qed.

(** X3: an elevator just registered is listed: [get_elevators] then
    returns the previous list followed by the new row, and does not
    change the session. *)
Theorem get_elevators_after_create
    (db : Database) (clk clk' : Clock) (elevator : ElevatorCreate.t) :
  exists row s' before,
    create_elevator elevator clk (SessionLocal db) = (Return row, s')
    /\ get_elevators clk' (SessionLocal db) = (Return before, SessionLocal db)
    /\ get_elevators clk' (SessionLocal (file s'))
       = (Return (before ++ [row]), SessionLocal (file s')).
Proof.
  eexists _, _, _.
  split; [apply (create_elevator_run elevator clk (SessionLocal db));
          reflexivity|].
  split; reflexivity.
Qed.

(** ** Calls served one after the other *)

Section Serving.
Context `{GroupBySemantics}.

Lemma serve_log_movement (movement : MovementCreate.t) (clk : Clock)
    (db : Database) :
  serve (CallLogMovement movement) clk db
  = (Return (MovementRow (inserted_row movement clk (movements db))),
     mkDatabase (elevators db)
       (after_close (MovementCreate.elevator_id movement) (py_now clk)
                    (movements db)
        ++ [inserted_row movement clk (movements db)])).
Proof.
  unfold serve, handle_request, store_after. cbn [get_db].
  unfold handler_of, bind. rewrite log_movement_fresh. reflexivity.
Qed.

Lemma serve_create_elevator (elevator : ElevatorCreate.t) (clk : Clock)
    (db : Database) :
  serve (CallCreateElevator elevator) clk db
  = (Return (ElevatorRow (inserted_elevator elevator (elevators db))),
     mkDatabase (elevators db ++ [inserted_elevator elevator (elevators db)])
                (movements db)).
Proof.
  unfold serve, handle_request, store_after. cbn [get_db].
  unfold handler_of, bind.
  rewrite (create_elevator_run elevator clk (SessionLocal db)) by reflexivity.
  reflexivity.
Qed.

Lemma serve_reads (c : Call) (clk : Clock) (db : Database) :
  reads c = true ->
  exists v, serve c clk db = (Return v, db).
Proof.
  destruct c; try discriminate; intros _;
    unfold serve, handle_request, store_after; cbn [get_db];
    unfold handler_of, bind.
  5: rewrite get_ml_data_run.
  all: eexists; reflexivity.
Qed.

(** X4: storage failures aside, a handler called with integer
    arguments the store accepts, on a store whose ids are positive and
    below the largest rowid, returns a value when run through [get_db]:
    the [refresh] after a [commit] finds the row just written, and
    [get_ml_data] never subtracts from a null [departure_time].  (The
    integers of the embedding are unbounded; the premises confine the
    statement to the values SQLite stores.) *)
Theorem every_call_returns (c : Call) (clk : Clock) (db : Database) :
  call_in_range c = true ->
  rowids_in_range (map Elevator.id (elevators db)) ->
  rowids_in_range (map Movement.id (movements db)) ->
  exists v, fst (serve c clk db) = Return v.
Proof.
  intros _ _ _.
  destruct (reads c) eqn:Hr.
  - destruct (serve_reads c clk db Hr) as [v Hv]. exists v. rewrite Hv.
    reflexivity.
  - destruct c; try discriminate.
    + eexists. rewrite serve_create_elevator. reflexivity.
    + eexists. rewrite serve_log_movement. reflexivity.
Qed.

(** X5: the five listing and reporting handlers leave the store as it
    was; only [create_elevator] and [log_movement] write, the first to
    [elevators] only and the second to [movements] only. *)
Theorem only_two_handlers_write (c : Call) (clk : Clock) (db : Database) :
  match c with
  | CallCreateElevator _ =>
      movements (snd (serve c clk db)) = movements db
      /\ length (elevators (snd (serve c clk db)))
         = S (length (elevators db))
  | CallLogMovement _ =>
      elevators (snd (serve c clk db)) = elevators db
      /\ length (movements (snd (serve c clk db)))
         = S (length (movements db))
  | _ => snd (serve c clk db) = db
  end.
Proof.
  destruct c;
    try (match goal with
         | |- snd (serve ?c _ _) = _ =>
             destruct (serve_reads c clk db eq_refl) as [v Hv];
             rewrite Hv; reflexivity
         end).
  - rewrite serve_create_elevator. cbn [snd elevators movements].
    split; [reflexivity|]. rewrite length_app. cbn [length]. lia.
  - rewrite serve_log_movement. cbn [snd elevators movements].
    split; [reflexivity|].
    rewrite length_app, <- (length_map Movement.id (after_close _ _ _)),
      map_id_after_close, length_map. cbn [length]. lia.
Qed.

End Serving.

(** ** Invariants along a sequence of calls *)

Lemma consecutive_next (n : nat) :
  next_rowid (map Z.of_nat (seq 1 n)) = Z.of_nat n + 1.
Proof.
  induction n as [|n IH]; [reflexivity|].
  rewrite seq_S, map_app. cbn [map].
  replace (Z.of_nat (1 + n)) with (next_rowid (map Z.of_nat (seq 1 n)))
    by (rewrite IH; lia).
  rewrite next_rowid_snoc, IH. lia.
Qed.

Lemma consecutive_ids_snoc (ids : list Z) :
  consecutive_ids ids -> consecutive_ids (ids ++ [next_rowid ids]).
Proof.
  unfold consecutive_ids. intros Hc.
  rewrite length_app. cbn [length]. rewrite Nat.add_1_r, seq_S, map_app.
  cbn [map]. rewrite <- Hc. f_equal. f_equal.
  rewrite Hc at 1. rewrite consecutive_next. lia.
Qed.

Lemma consecutive_ids_NoDup (ids : list Z) : consecutive_ids ids -> NoDup ids.
Proof.
  unfold consecutive_ids. intros ->.
  apply Injective_map_NoDup; [|apply seq_NoDup].
  intros a b. apply Nat2Z.inj.
Qed.

(** Closing and inserting keeps "at most one open row per elevator". *)
Lemma at_most_one_open_step (movement : MovementCreate.t) (clk : Clock)
    (tbl : list Movement.t) :
  at_most_one_open tbl ->
  at_most_one_open
    (after_close (MovementCreate.elevator_id movement) (py_now clk) tbl
     ++ [inserted_row movement clk tbl]).
Proof.
  intros Hinv e'. set (e := MovementCreate.elevator_id movement).
  unfold open_rows. rewrite filter_app, length_app.
  destruct (Z.eq_dec e' e) as [->|Hne].
  - fold (open_rows e (after_close e (py_now clk) tbl)).
    rewrite (open_rows_after_close_same e (py_now clk) tbl (Hinv e)).
    cbn [filter length]. destruct (open_for e _); cbn [length]; lia.
  - cbn [filter]. unfold open_for at 2. cbn [inserted_row Movement.elevator_id].
    fold e. destruct (Z.eqb_spec e e') as [Heq|_]; [congruence|].
    cbn [andb length].
    pose proof (open_rows_after_close_other e e' (py_now clk) tbl).
    specialize (Hinv e'). unfold open_rows in *. lia.
Qed.

Section Sequences.
Context `{GroupBySemantics}.

Lemma serve_well_formed (c : Call) (clk : Clock) (db : Database) :
  well_formed db -> well_formed (snd (serve c clk db)).
Proof.
  intros (Hel & Hmv & Hopen).
  destruct (reads c) eqn:Hr.
  - destruct (serve_reads c clk db Hr) as [v ->]. repeat split; assumption.
  - destruct c; try discriminate.
    + rewrite serve_create_elevator. cbn [snd]. repeat split; cbn; trivial.
      rewrite map_app. cbn [map]. apply consecutive_ids_snoc, Hel.
    + rewrite serve_log_movement. cbn [snd]. repeat split; cbn; trivial.
      * rewrite map_app, map_id_after_close. cbn [map].
        apply consecutive_ids_snoc, Hmv.
      * apply at_most_one_open_step, Hopen.
Qed.

Lemma serve_lengths (c : Call) (clk : Clock) (db : Database) :
  length (elevators (snd (serve c clk db)))
  = (length (elevators db) + (if is_create_elevator c then 1 else 0))%nat
  /\ length (movements (snd (serve c clk db)))
     = (length (movements db) + (if is_log_movement c then 1 else 0))%nat.
Proof.
  destruct (reads c) eqn:Hr.
  - destruct (serve_reads c clk db Hr) as [v ->].
    destruct c; try discriminate; cbn; lia.
  - destruct c; try discriminate.
    + rewrite serve_create_elevator. cbn. rewrite length_app. cbn. lia.
    + rewrite serve_log_movement. cbn.
      rewrite length_app, <- (length_map Movement.id (after_close _ _ _)),
        map_id_after_close, length_map. cbn. lia.
Qed.

Lemma serve_all_well_formed (cs : list (Call * Clock)) (db : Database) :
  well_formed db -> well_formed (serve_all cs db).
Proof.
  revert db. induction cs as [|[c clk] cs IH]; intros db Hwf; [exact Hwf|].
  cbn [serve_all]. apply IH, serve_well_formed, Hwf.
Qed.

Lemma serve_all_lengths (cs : list (Call * Clock)) (db : Database) :
  length (elevators (serve_all cs db))
  = (length (elevators db) + calls_of is_create_elevator cs)%nat
  /\ length (movements (serve_all cs db))
     = (length (movements db) + calls_of is_log_movement cs)%nat.
Proof.
  revert db. induction cs as [|[c clk] cs IH]; intros db.
  - cbn. lia.
  - cbn [serve_all]. destruct (IH (snd (serve c clk db))) as [He Hm].
    destruct (serve_lengths c clk db) as [He1 Hm1].
    rewrite He, Hm, He1, Hm1. unfold calls_of. cbn [filter fst].
    destruct (is_create_elevator c), (is_log_movement c); cbn [length]; lia.
Qed.

(** X6: whatever calls are served, in whatever order, starting from
    the empty store: the store holds one elevator per [create_elevator]
    call and one movement per [log_movement] call, the ids of each table
    are 1, 2, 3, ... in storage order, and no elevator has two open
    movements. *)
Theorem reachable_store_well_formed (cs : list (Call * Clock)) :
  let db := serve_all cs empty_database in
  map Elevator.id (elevators db)
  = map Z.of_nat (seq 1 (calls_of is_create_elevator cs))
  /\ map Movement.id (movements db)
     = map Z.of_nat (seq 1 (calls_of is_log_movement cs))
  /\ at_most_one_open (movements db).
Proof.
  intros db.
  assert (Hwf : well_formed db).
  { apply serve_all_well_formed. repeat split. intros e. cbn. lia. }
  destruct Hwf as (Hel & Hmv & Hopen).
  destruct (serve_all_lengths cs empty_database) as [He Hm].
  fold db in He, Hm. cbn [empty_database elevators movements length] in He, Hm.
  unfold consecutive_ids in Hel, Hmv. rewrite length_map in Hel, Hmv.
  rewrite He in Hel. rewrite Hm in Hmv.
  repeat split; assumption.
Qed.

Lemma serve_pk_unique (c : Call) (clk : Clock) (db : Database) :
  pk_unique db -> pk_unique (snd (serve c clk db)).
Proof.
  unfold pk_unique. intros Hnd.
  destruct (reads c) eqn:Hr.
  - destruct (serve_reads c clk db Hr) as [v ->]. exact Hnd.
  - destruct c; try discriminate.
    + rewrite serve_create_elevator. exact Hnd.
    + rewrite serve_log_movement. cbn [snd movements].
      rewrite map_app, map_id_after_close. cbn [map].
      apply NoDup_snoc; [exact Hnd|].
      intros Hin. apply next_rowid_gt in Hin.
      cbn [inserted_row Movement.id] in Hin. lia.
Qed.

(** One call: each row stays where it is; it is rewritten only if it was
    open, and then only its [departure_time]. *)
Lemma serve_keeps_rows (c : Call) (clk : Clock) (db : Database)
    (i : nat) (r : Movement.t) :
  pk_unique db ->
  nth_error (movements db) i = Some r ->
  exists r',
    nth_error (movements (snd (serve c clk db))) i = Some r'
    /\ same_but_departure r r'
    /\ (r' = r
        \/ (Movement.departure_time r = None
            /\ Movement.departure_time r' <> None)).
Proof.
  intros Hpk Hnth.
  assert (Hrefl : same_but_departure r r) by (repeat split).
  destruct (reads c) eqn:Hr.
  - destruct (serve_reads c clk db Hr) as [v ->]. exists r. auto.
  - destruct c; try discriminate.
    + rewrite serve_create_elevator. exists r. auto.
    + rewrite serve_log_movement. cbn [snd movements].
      destruct (log_movement_frame_pointwise
                  (MovementCreate.elevator_id movement) (py_now clk)
                  (movements db) (inserted_row movement clk (movements db))
                  i r Hpk Hnth) as [Hsame|(Hchg & Hopen & _)].
      * exists r. auto.
      * exists (Movement.with_departure_time r (Some (py_now clk))).
        split; [exact Hchg|]. split; [repeat split|]. right.
        unfold open_for in Hopen. apply andb_true_iff in Hopen.
        destruct Hopen as [_ Hnull].
        destruct (Movement.departure_time r); [discriminate|].
        split; [reflexivity|discriminate].
Qed.

(** X7: the movement table is append-only apart from closing.  Along
    any sequence of calls on a store with a primary key, a row keeps its
    position, [id], [elevator_id], floors and [arrival_time]; a row whose
    [departure_time] is set is never touched again, and a row that is
    still open afterwards is unchanged. *)
Theorem rows_are_kept (cs : list (Call * Clock)) (db : Database)
    (i : nat) (r : Movement.t) :
  pk_unique db ->
  nth_error (movements db) i = Some r ->
  exists r',
    nth_error (movements (serve_all cs db)) i = Some r'
    /\ same_but_departure r r'
    /\ (Movement.departure_time r <> None -> r' = r)
    /\ (Movement.departure_time r' = None -> r' = r).
Proof.
  revert db r. induction cs as [|[c clk] cs IH]; intros db r Hpk Hnth.
  - exists r. cbn [serve_all]. repeat split; trivial.
  - cbn [serve_all].
    destruct (serve_keeps_rows c clk db i r Hpk Hnth)
      as (r1 & Hnth1 & Hsame1 & Hcase).
    destruct (IH _ r1 (serve_pk_unique c clk db Hpk) Hnth1)
      as (r' & Hnth' & Hsame' & Hclosed & Hopen).
    exists r'. split; [exact Hnth'|]. split; [|split].
    + destruct Hsame1 as (a1 & a2 & a3 & a4 & a5).
      destruct Hsame' as (b1 & b2 & b3 & b4 & b5).
      repeat split; congruence.
    + intros Hdep. destruct Hcase as [->|[Hnone _]]; [|contradiction].
      apply Hclosed, Hdep.
    + intros Hnone. pose proof (Hopen Hnone) as Heq. subst r'.
      destruct Hcase as [->|[_ Hset]]; [reflexivity|contradiction].
Qed.

End Sequences.

Lemma rows_are_kept_witness :
  pk_unique example_store
  /\ nth_error (movements example_store) 0 = Some example_open_row
  /\ exists r',
       nth_error (movements
                    (serve_all [(CallLogMovement example_request, example_clock);
                                (CallGetMlData, example_clock)]
                               example_store)) 0 = Some r'
       /\ same_but_departure example_open_row r'.
Proof.
  split; [exact pk_unique_example|]. split; [reflexivity|].
  destruct (rows_are_kept
              [(CallLogMovement example_request, example_clock);
               (CallGetMlData, example_clock)]
              example_store 0 example_open_row pk_unique_example eq_refl)
    as (r' & Hnth & Hsame & _).
  exists r'. split; assumption.
Defined.

(** ** Resting elevators and the invariant *)

Lemma open_rows_of_resting (e : Z) (tbl : list Movement.t) :
  open_rows e tbl
  = filter (fun r => Movement.elevator_id r =? e) (filter resting tbl).
Proof.
  unfold open_rows, open_for, resting.
  induction tbl as [|r tbl IH]; [reflexivity|]. cbn [filter].
  destruct (is_None (Movement.departure_time r)); cbn [filter].
  - rewrite andb_true_r, IH. reflexivity.
  - rewrite andb_false_r. exact IH.
Qed.

(** No value of [f] occurs twice iff every value selects at most one
    element. *)
Lemma NoDup_map_iff_count {A} (f : A -> Z) (l : list A) :
  NoDup (map f l)
  <-> forall e, (length (filter (fun a => (f a =? e)%Z) l) <= 1)%nat.
Proof.
  induction l as [|a l IH]; cbn [map filter].
  - split; [intros _ e; cbn; lia|constructor].
  - split.
    + intros Hnd e. inversion Hnd as [|x xs Hnotin Hnd']. subst.
      destruct (Z.eqb_spec (f a) e) as [<-|_].
      * assert (Hnil : filter (fun b => f b =? f a) l = []).
        { apply filter_nil_iff. intros b Hb. apply Z.eqb_neq. intros Heq.
          apply Hnotin. rewrite <- Heq. apply in_map, Hb. }
        rewrite Hnil. cbn. lia.
      * apply (proj1 IH Hnd').
    + intros Hcount. constructor.
      * intros Hin. apply in_map_iff in Hin. destruct Hin as (b & Heq & Hb).
        specialize (Hcount (f a)). rewrite Z.eqb_refl in Hcount.
        assert (Hin : In b (filter (fun x => f x =? f a) l)).
        { apply filter_In. split; [exact Hb|]. apply Z.eqb_eq, Heq. }
        destruct (filter (fun x => f x =? f a) l); [destruct Hin|].
        cbn in Hcount. lia.
      * apply IH. intros e. specialize (Hcount e).
        destruct (f a =? e); cbn [length] in Hcount; lia.
Qed.

(** X8: the invariant can be read off the listing: the rows returned
    by [get_resting_elevators] name each elevator at most once exactly
    when no elevator has two open movements. *)
Theorem resting_lists_each_elevator_once (clk : Clock) (s : Session) :
  exists rows,
    get_resting_elevators clk s = (Return rows, s)
    /\ (NoDup (map Movement.elevator_id rows)
        <-> at_most_one_open (movements (file s))).
Proof.
  exists (filter resting (movements (file s))). split; [reflexivity|].
  rewrite NoDup_map_iff_count. unfold at_most_one_open.
  split; intros Hc e; specialize (Hc e);
    rewrite open_rows_of_resting in *; exact Hc.
Qed.

(** X9: a movement logged with a [departure_time] leaves its elevator
    without an open movement: provided no elevator had two open
    movements, [get_resting_elevators] afterwards returns no row of that
    elevator. *)
Theorem log_departed_movement_leaves_none_resting
    (db : Database) (clk clk' : Clock) (movement : MovementCreate.t) :
  at_most_one_open (movements db) ->
  MovementCreate.departure_time movement <> None ->
  exists row s' rows,
    log_movement movement clk (SessionLocal db) = (Return row, s')
    /\ get_resting_elevators clk' (SessionLocal (file s'))
       = (Return rows, SessionLocal (file s'))
    /\ forall r, In r rows ->
                 Movement.elevator_id r <> MovementCreate.elevator_id movement.
Proof.
  intros Hinv Hdep.
  eexists _, _, _. split; [apply log_movement_fresh|].
  split; [reflexivity|].
  cbn [file movements]. intros r Hr Heid.
  set (e := MovementCreate.elevator_id movement) in *.
  apply filter_In in Hr. destruct Hr as [Hr Hnull].
  assert (Hin : In r (open_rows e
                        (after_close e (py_now clk) (movements db)
                         ++ [inserted_row movement clk (movements db)]))).
  { apply filter_In. split; [exact Hr|].
    unfold open_for. rewrite Heid, Z.eqb_refl. exact Hnull. }
  unfold open_rows in Hin. rewrite filter_app in Hin.
  fold (open_rows e (after_close e (py_now clk) (movements db))) in Hin.
  rewrite (open_rows_after_close_same e _ _ (Hinv e)) in Hin.
  cbn [app filter] in Hin. unfold open_for in Hin.
  cbn [inserted_row Movement.departure_time] in Hin.
  destruct (MovementCreate.departure_time movement); [|congruence].
  rewrite andb_false_r in Hin. destruct Hin.
Qed.

Lemma log_departed_movement_leaves_none_resting_witness :
  at_most_one_open (movements example_store)
  /\ exists row s' rows,
       log_movement (MovementCreate.mk 7 5 2 (Some 150)) example_clock
                    (SessionLocal example_store) = (Return row, s')
       /\ get_resting_elevators example_clock (SessionLocal (file s'))
          = (Return rows, SessionLocal (file s'))
       /\ forall r, In r rows -> Movement.elevator_id r <> 7.
Proof.
  assert (H : at_most_one_open (movements example_store)).
  { apply at_most_one_openb_correct. vm_compute. reflexivity. }
  split; [exact H|].
  apply (log_departed_movement_leaves_none_resting
           example_store example_clock example_clock
           (MovementCreate.mk 7 5 2 (Some 150)) H).
  discriminate.
Defined.

(** ** Listings per elevator *)

Lemma update_commutes_with_elevator_filter (e pk : Z) (t : datetime)
    (tbl : list Movement.t) :
  filter (fun r => Movement.elevator_id r =? e)
         (update_departure_time pk t tbl)
  = update_departure_time pk t
      (filter (fun r => Movement.elevator_id r =? e) tbl).
Proof.
  unfold update_departure_time.
  induction tbl as [|r tbl IH]; [reflexivity|]. cbn [map filter].
  destruct (Movement.id r =? pk) eqn:Hid; cbn [Movement.with_departure_time
    Movement.elevator_id];
    destruct (Movement.elevator_id r =? e); cbn [map]; rewrite ?Hid, IH;
    reflexivity.
Qed.

Lemma update_same_but_departure (pk : Z) (t : datetime)
    (l : list Movement.t) :
  Forall2 same_but_departure l (update_departure_time pk t l).
Proof.
  unfold update_departure_time.
  induction l as [|r l IH]; cbn [map]; constructor; [|exact IH].
  destruct (Movement.id r =? pk); repeat split.
Qed.

Lemma Forall2_same_refl (l : list Movement.t) :
  Forall2 same_but_departure l l.
Proof. induction l; constructor; [repeat split|assumption]. Qed.

(** The listing of another elevator does not see the [UPDATE]. *)
Lemma after_close_other_listing (e e' : Z) (t : datetime)
    (tbl : list Movement.t) :
  NoDup (map Movement.id tbl) -> e' <> e ->
  filter (fun r => Movement.elevator_id r =? e') (after_close e t tbl)
  = filter (fun r => Movement.elevator_id r =? e') tbl.
Proof.
  intros Hnd Hne. unfold after_close.
  destruct (find (open_for e) tbl) as [m|] eqn:Hfind; [|reflexivity].
  destruct (find_first _ _ _ Hfind) as (pre & post & -> & Hm & _).
  rewrite (update_unique_row t pre post m Hnd), !filter_app.
  cbn [filter Movement.with_departure_time Movement.elevator_id].
  unfold open_for in Hm. apply andb_true_iff in Hm. destruct Hm as [Hm _].
  apply Z.eqb_eq in Hm. rewrite Hm.
  destruct (Z.eqb_spec e e') as [Heq|_]; [congruence|reflexivity].
Qed.

(** X10: logging a movement for elevator [e] on a store with a primary
    key does not change the per-elevator listing of any other elevator;
    the listing of [e] keeps its rows in order, each the same but possibly
    for [departure_time], and gains the new row at its end. *)
Theorem log_movement_changes_one_listing
    (db : Database) (clk clk' : Clock) (movement : MovementCreate.t) :
  pk_unique db ->
  let e := MovementCreate.elevator_id movement in
  exists row s',
    log_movement movement clk (SessionLocal db) = (Return row, s')
    /\ (forall e', e' <> e ->
          fst (get_movements' e' clk' (SessionLocal (file s')))
          = fst (get_movements' e' clk' (SessionLocal db)))
    /\ exists before after,
         fst (get_movements' e clk' (SessionLocal db)) = Return before
         /\ fst (get_movements' e clk' (SessionLocal (file s')))
            = Return (after ++ [row])
         /\ Forall2 same_but_departure before after.
Proof.
  intros Hpk e.
  eexists _, _. split; [apply log_movement_fresh|].
  unfold get_movements', query_all.
  cbn [fst file movements SessionLocal]. fold e. split.
  - intros e' Hne. rewrite filter_app. cbn [filter inserted_row
      Movement.elevator_id]. fold e.
    destruct (Z.eqb_spec e e') as [Heq|_]; [congruence|].
    rewrite app_nil_r, (after_close_other_listing e e' _ _ Hpk Hne).
    reflexivity.
  - eexists _, _. split; [reflexivity|].
    rewrite filter_app. cbn [filter inserted_row Movement.elevator_id].
    fold e. rewrite Z.eqb_refl. split; [reflexivity|].
    unfold after_close. destruct (find (open_for e) (movements db)).
    + rewrite update_commutes_with_elevator_filter.
      apply update_same_but_departure.
    + apply Forall2_same_refl.
Qed.

Lemma log_movement_changes_one_listing_witness :
  pk_unique example_store
  /\ exists row s',
       log_movement example_request example_clock (SessionLocal example_store)
       = (Return row, s')
       /\ fst (get_movements' 8 example_clock (SessionLocal (file s')))
          = Return [example_other_row].
Proof.
  split; [exact pk_unique_example|].
  destruct (log_movement_changes_one_listing
              example_store example_clock example_clock example_request
              pk_unique_example) as (row & s' & Hrun & Hother & _).
  exists row, s'. split; [exact Hrun|].
  rewrite (Hother 8); [reflexivity|discriminate].
Defined.

(** ** The life of a movement *)

(** X11: a movement logged without [departure_time] is closed by the
    next movement logged for the same elevator.  On a store with a
    primary key where no elevator has two open movements, after the two
    calls the first row is stored with [departure_time] equal to the
    server time of the second call and is otherwise as returned, the
    second row follows it with the next id, and nothing before them is
    changed by the second call. *)
Theorem next_movement_closes_previous
    (db : Database) (clk1 clk2 : Clock) (m1 m2 : MovementCreate.t) :
  pk_unique db ->
  at_most_one_open (movements db) ->
  MovementCreate.departure_time m1 = None ->
  MovementCreate.elevator_id m2 = MovementCreate.elevator_id m1 ->
  exists row1 s1 row2 s2 older,
    log_movement m1 clk1 (SessionLocal db) = (Return row1, s1)
    /\ log_movement m2 clk2 (SessionLocal (file s1)) = (Return row2, s2)
    /\ movements (file s1) = older ++ [row1]
    /\ movements (file s2)
       = older ++ [Movement.with_departure_time row1 (Some (py_now clk2));
                   row2]
    /\ Movement.id row2 = Movement.id row1 + 1.
Proof.
  intros Hpk Hinv Hdep Heid.
  set (e := MovementCreate.elevator_id m1).
  set (A := after_close e (py_now clk1) (movements db)).
  set (row1 := inserted_row m1 clk1 (movements db)).
  assert (Hids : map Movement.id A = map Movement.id (movements db))
    by apply map_id_after_close.
  assert (Hnd : NoDup (map Movement.id (A ++ row1 :: []))).
  { rewrite map_app, Hids. cbn [map]. apply NoDup_snoc; [exact Hpk|].
    intros Hin. apply next_rowid_gt in Hin.
    cbn [row1 inserted_row Movement.id] in Hin. lia. }
  assert (Hopen1 : open_for e row1 = true).
  { unfold open_for. cbn [row1 inserted_row Movement.elevator_id
      Movement.departure_time]. fold e. rewrite Z.eqb_refl, Hdep. reflexivity. }
  assert (Hpre : forall r, In r A -> open_for e r = false).
  { apply filter_nil_iff.
    exact (open_rows_after_close_same e (py_now clk1) _ (Hinv e)). }
  exists row1. eexists. eexists. eexists. exists A.
  split; [apply log_movement_fresh|].
  split; [apply log_movement_fresh|].
  cbn [file movements]. fold e A row1. rewrite Heid. fold e.
  split; [reflexivity|].
  rewrite (after_close_first e (py_now clk2) A [] row1 Hnd Hopen1 Hpre).
  rewrite <- app_assoc. cbn [app].
  split; [reflexivity|].
  cbn [inserted_row Movement.id]. rewrite map_app, Hids. cbn [map].
  cbn [row1 inserted_row Movement.id]. apply next_rowid_snoc.
Qed.

Lemma next_movement_closes_previous_witness :
  pk_unique example_store
  /\ at_most_one_open (movements example_store)
  /\ exists row1 s1 row2 s2 older,
       log_movement example_request example_clock (SessionLocal example_store)
       = (Return row1, s1)
       /\ log_movement (MovementCreate.mk 7 2 9 None) (mkClock 300 300)
                       (SessionLocal (file s1)) = (Return row2, s2)
       /\ movements (file s2)
          = older ++ [Movement.with_departure_time row1 (Some 300); row2].
Proof.
  assert (H : at_most_one_open (movements example_store)).
  { apply at_most_one_openb_correct. vm_compute. reflexivity. }
  split; [exact pk_unique_example|]. split; [exact H|].
  destruct (next_movement_closes_previous
              example_store example_clock (mkClock 300 300)
              example_request (MovementCreate.mk 7 2 9 None)
              pk_unique_example H eq_refl eq_refl)
    as (row1 & s1 & row2 & s2 & older & H1 & H2 & _ & H4 & _).
  exists row1, s1, row2, s2, older. repeat split; assumption.
Defined.

(** ** The report, pair by pair *)

Lemma key_eqb_eq (a b : Z * Z) : key_eqb a b = true <-> a = b.
Proof.
  destruct a as [a1 a2], b as [b1 b2]. unfold key_eqb. cbn [fst snd].
  rewrite andb_true_iff, !Z.eqb_eq.
  split; [intros [-> ->]; reflexivity|intros [= -> ->]; split; reflexivity].
Qed.

Lemma same_group_key_eqb (a b : Movement.t) :
  same_group a b = key_eqb (row_key a) (row_key b).
Proof. reflexivity. Qed.

Lemma size_for_cons (k : Z * Z) (g : Group) (gs : list Group) :
  size_for k (g :: gs)
  = (if key_eqb (group_key g) k then group_size g else 0) + size_for k gs.
Proof.
  unfold size_for. cbn [filter].
  destruct (key_eqb (group_key g) k); [reflexivity|lia].
Qed.

Lemma group_size_snoc (r0 r : Movement.t) (g : list Movement.t) :
  group_size (r0, g ++ [r]) = group_size (r0, g) + 1.
Proof.
  unfold group_size, group_rows. cbn [fst snd length].
  rewrite length_app. cbn [length]. lia.
Qed.

(** A row adds one to the groups of its own pair and nothing to the
    others. *)
Lemma size_for_group_add (k : Z * Z) (r : Movement.t) (gs : list Group) :
  size_for k (group_add r gs)
  = size_for k gs + (if key_eqb (row_key r) k then 1 else 0).
Proof.
  induction gs as [|[r0 g] gs IH]; cbn [group_add].
  - rewrite size_for_cons. unfold size_for. cbn.
    change (key_eqb (group_key (r, [])) k) with (key_eqb (row_key r) k).
    destruct (key_eqb (row_key r) k); reflexivity.
  - destruct (same_group r0 r) eqn:Hsg.
    + rewrite !size_for_cons.
      change (group_key (r0, g ++ [r])) with (group_key (r0, g)).
      rewrite group_size_snoc.
      apply same_group_key in Hsg.
      change (group_key (r0, g)) with (row_key r0). rewrite Hsg.
      destruct (key_eqb (row_key r) k); lia.
    + rewrite !size_for_cons, IH. lia.
Qed.

Lemma size_for_group_by (k : Z * Z) (rows : list Movement.t) :
  size_for k (group_by rows)
  = Z.of_nat (length (filter (fun r => key_eqb (row_key r) k) rows)).
Proof.
  induction rows as [|r rows IH] using rev_ind; [reflexivity|].
  rewrite group_by_snoc, size_for_group_add, IH, filter_app, length_app.
  cbn [filter]. destruct (key_eqb (row_key r) k); cbn [length]; lia.
Qed.

(** Where pairs are not repeated, the groups of a pair are one group. *)
Lemma size_for_own_key (gs : list Group) (g : Group) :
  NoDup (map group_key gs) -> In g gs ->
  size_for (group_key g) gs = group_size g.
Proof.
  assert (Hnone : forall k l, ~ In k (map group_key l) -> size_for k l = 0).
  { intros k l. induction l as [|g0 l IH]; intros Hn; [reflexivity|].
    rewrite size_for_cons.
    destruct (key_eqb (group_key g0) k) eqn:Hk.
    - exfalso. apply Hn. left. apply key_eqb_eq, Hk.
    - rewrite IH; [reflexivity|]. intros Hin. apply Hn. right. exact Hin. }
  induction gs as [|g0 gs IH]; intros Hnd Hg; [destruct Hg|].
  cbn [map] in Hnd. inversion Hnd as [|x xs Hnotin Hnd']. subst.
  rewrite size_for_cons. destruct Hg as [->|Hg].
  - rewrite (proj2 (key_eqb_eq _ _) eq_refl), (Hnone _ _ Hnotin). lia.
  - destruct (key_eqb (group_key g0) (group_key g)) eqn:Hk.
    + exfalso. apply Hnotin. apply key_eqb_eq in Hk. rewrite Hk.
      apply in_map, Hg.
    + rewrite (IH Hnd' Hg). lia.
Qed.

Lemma filter_filter {A} (p q : A -> bool) (l : list A) :
  filter q (filter p l) = filter (fun a => p a && q a) l.
Proof.
  induction l as [|a l IH]; [reflexivity|]. cbn [filter].
  destruct (p a); cbn [filter andb]; [destruct (q a)|]; rewrite IH;
    reflexivity.
Qed.

(** X12: each entry of [training_data] counts exactly the rows of the
    table that have a [departure_time] and go from its [requested_floor]
    to its [destination_floor]; the count is at least 1. *)
Theorem training_count_is_exact `{GroupBySemantics}
    (clk : Clock) (s : Session) :
  exists data,
    get_ml_data clk s = (Return data, s)
    /\ forall t,
         In t (training_data data) ->
         TrainingEntry.count t
         = Z.of_nat
             (length
                (filter (closed_with_pair (TrainingEntry.requested_floor t,
                                           TrainingEntry.destination_floor t))
                        (movements (file s))))
         /\ 1 <= TrainingEntry.count t.
Proof.
  eexists. split; [apply get_ml_data_run|]. cbn [training_data].
  intros t Ht. apply in_map_iff in Ht. destruct Ht as (d & <- & Hd).
  unfold demand_of in Hd. apply in_map_iff in Hd. destruct Hd as (g & <- & Hg).
  apply group_of_demand in Hg.
  cbn [training_entry demand_row TrainingEntry.count
       TrainingEntry.requested_floor TrainingEntry.destination_floor d0 d1 d4].
  fold (group_size g). fold (group_key g).
  split.
  - rewrite <- (size_for_own_key _ g (group_by_keys_NoDup _) Hg).
    rewrite size_for_group_by, filter_filter. reflexivity.
  - unfold group_size, group_rows. cbn [length]. lia.
Qed.

(** X13: the report is empty exactly when no movement has a
    [departure_time]: [training_data], and with it [elapsed_data], is the
    empty list iff every row of the table is open. *)
Theorem report_empty_iff_no_closed_row `{GroupBySemantics}
    (clk : Clock) (s : Session) :
  exists data,
    get_ml_data clk s = (Return data, s)
    /\ (training_data data = [] <->
        forall r, In r (movements (file s)) ->
                  Movement.departure_time r = None)
    /\ (elapsed_data data = [] <-> training_data data = []).
Proof.
  eexists. split; [apply get_ml_data_run|].
  cbn [training_data elapsed_data]. split.
  - remember (filter is_closed (movements (file s))) as rows eqn:Erows.
    assert (Hrows : rows = [] <->
                    forall r, In r (movements (file s)) ->
                              Movement.departure_time r = None).
    { rewrite Erows, filter_nil_iff. unfold is_closed.
      split; intros Hall r Hr; specialize (Hall r Hr);
        destruct (Movement.departure_time r); try reflexivity;
        discriminate. }
    rewrite <- Hrows. unfold demand_of. rewrite <- Erows. clear Erows Hrows.
    pose proof (group_order_perm (group_by rows)) as Hperm.
    pose proof (group_by_size rows) as Hsize.
    split.
    + intros Hnil. apply map_eq_nil, map_eq_nil in Hnil.
      rewrite Hnil in Hperm. apply Permutation_nil in Hperm.
      rewrite Hperm in Hsize. cbn in Hsize.
      destruct rows; [reflexivity|cbn in Hsize; lia].
    + intros ->. change (group_by []) with (@nil Group) in *.
      apply Permutation_sym, Permutation_nil in Hperm. rewrite Hperm.
      reflexivity.
  - split; intros Hnil; apply map_eq_nil in Hnil; rewrite Hnil; reflexivity.
Qed.

(** ** Closing times under one clock *)

Lemma times_in_order_after_close (e : Z) (t t' : datetime)
    (tbl : list Movement.t) :
  t <= t' -> times_in_order t tbl -> times_in_order t' (after_close e t' tbl).
Proof.
  intros Hle Hin r Hr. unfold after_close in Hr.
  destruct (find (open_for e) tbl) as [m|].
  - unfold update_departure_time in Hr. apply in_map_iff in Hr.
    destruct Hr as (r0 & <- & Hr0). destruct (Hin r0 Hr0) as [Harr Hdep].
    destruct (Movement.id r0 =? Movement.id m).
    + cbn [Movement.with_departure_time Movement.arrival_time
        Movement.departure_time].
      split; [lia|]. intros d [= <-]. lia.
    + split; [lia|]. intros d Hd. specialize (Hdep d Hd). lia.
  - destruct (Hin r Hr) as [Harr Hdep].
    split; [lia|]. intros d Hd. specialize (Hdep d Hd). lia.
Qed.

Section OneClock.
Context `{GroupBySemantics}.

Lemma serve_times_in_order (c : Call) (clk : Clock) (db : Database)
    (t : datetime) :
  py_now clk = sql_now clk -> t <= sql_now clk ->
  omits_departure c = true ->
  times_in_order t (movements db) ->
  times_in_order (sql_now clk) (movements (snd (serve c clk db))).
Proof.
  intros Hagree Hle Homit Hin.
  assert (Hkeep : times_in_order (sql_now clk) (movements db)).
  { intros r Hr. destruct (Hin r Hr) as [Harr Hdep].
    split; [lia|]. intros d Hd. specialize (Hdep d Hd). lia. }
  destruct (reads c) eqn:Hr.
  - destruct (serve_reads c clk db Hr) as [v ->]. exact Hkeep.
  - destruct c; try discriminate.
    + rewrite serve_create_elevator. exact Hkeep.
    + rewrite serve_log_movement. cbn [snd movements].
      intros r Hrin. apply in_app_or in Hrin. destruct Hrin as [Hrin|[<-|[]]].
      * rewrite Hagree in Hrin.
        exact (times_in_order_after_close _ t (sql_now clk) _ Hle Hin r Hrin).
      * cbn [inserted_row Movement.arrival_time Movement.departure_time].
        split; [lia|]. cbn [omits_departure] in Homit.
        destruct (MovementCreate.departure_time movement); [discriminate|].
        intros d [=].
Qed.

(** X14: when Python's clock and the store's clock show the same time
    and that time never goes back, and no [log_movement] call brings its
    own [departure_time], every row of a store reached from the empty one
    that has a [departure_time] departed at or after its [arrival_time]. *)
Theorem one_clock_orders_times (cs : list (Call * Clock)) (t0 : datetime) :
  steady_clock t0 cs ->
  Forall (fun x => omits_departure (fst x) = true) cs ->
  forall r d,
    In r (movements (serve_all cs empty_database)) ->
    Movement.departure_time r = Some d ->
    Movement.arrival_time r <= d.
Proof.
  intros Hclk Homit.
  assert (Hgen : forall cs t db,
             steady_clock t cs ->
             Forall (fun x => omits_departure (fst x) = true) cs ->
             times_in_order t (movements db) ->
             exists t', times_in_order t' (movements (serve_all cs db))).
  { clear. induction cs as [|[c clk] cs IH]; intros t db Hclk Homit Hin.
    - exists t. exact Hin.
    - cbn [serve_all]. destruct Hclk as (Hagree & Hle & Hclk).
      inversion Homit as [|x xs Hc Hcs]. subst.
      apply (IH (sql_now clk) _ Hclk Hcs).
      exact (serve_times_in_order c clk db t Hagree Hle Hc Hin). }
  destruct (Hgen cs t0 empty_database Hclk Homit) as [t' Ht'].
  { intros r []. }
  intros r d Hr Hd. destruct (Ht' r Hr) as [_ Hdep].
  specialize (Hdep d Hd). lia.
Qed.

End OneClock.

Lemma one_clock_orders_times_witness :
  steady_clock 0 [(CallLogMovement (MovementCreate.mk 7 1 5 None), mkClock 10 10);
                  (CallLogMovement (MovementCreate.mk 7 5 2 None), mkClock 25 25)]
  /\ forall r d,
       In r (movements
               (serve_all
                  [(CallLogMovement (MovementCreate.mk 7 1 5 None), mkClock 10 10);
                   (CallLogMovement (MovementCreate.mk 7 5 2 None), mkClock 25 25)]
                  empty_database)) ->
       Movement.departure_time r = Some d ->
       Movement.arrival_time r <= d.
Proof.
  assert (Hc : steady_clock 0
                 [(CallLogMovement (MovementCreate.mk 7 1 5 None), mkClock 10 10);
                  (CallLogMovement (MovementCreate.mk 7 5 2 None), mkClock 25 25)]).
  { cbn. repeat split; lia. }
  split; [exact Hc|].
  apply (one_clock_orders_times _ 0 Hc).
  repeat constructor.
Defined.

(** ** Open movements and the report *)

(** X15: the report sees a movement only once it is closed: a movement
    logged without [departure_time] for an elevator that has no open row
    leaves the result of [get_ml_data] as it was. *)
Theorem open_movement_is_not_reported `{GroupBySemantics}
    (db : Database) (clk clk' : Clock) (movement : MovementCreate.t) :
  MovementCreate.departure_time movement = None ->
  (forall r, In r (movements db) ->
             open_for (MovementCreate.elevator_id movement) r = false) ->
  exists row s',
    log_movement movement clk (SessionLocal db) = (Return row, s')
    /\ fst (get_ml_data clk' (SessionLocal (file s')))
       = fst (get_ml_data clk' (SessionLocal db)).
Proof.
  intros Hdep Hnone.
  eexists _, _. split; [apply log_movement_fresh|].
  rewrite !get_ml_data_run. cbn [fst]. unfold demand_of.
  cbn [file movements SessionLocal].
  rewrite (after_close_none _ _ _ Hnone), filter_app.
  assert (Hopen : is_closed (inserted_row movement clk (movements db)) = false).
  { unfold is_closed. cbn [inserted_row Movement.departure_time].
    rewrite Hdep. reflexivity. }
  cbn [filter]. rewrite Hopen, app_nil_r. reflexivity.
Qed.

Lemma open_movement_is_not_reported_witness :
  (forall r, In r (movements example_store) -> open_for 9 r = false)
  /\ exists row s',
       log_movement (MovementCreate.mk 9 0 4 None) example_clock
                    (SessionLocal example_store) = (Return row, s')
       /\ fst (get_ml_data example_clock (SessionLocal (file s')))
          = fst (get_ml_data example_clock (SessionLocal example_store)).
Proof.
  assert (Hn : forall r, In r (movements example_store) ->
                         open_for 9 r = false).
  { intros r [<-|[<-|[]]]; reflexivity. }
  split; [exact Hn|].
  exact (open_movement_is_not_reported
           example_store example_clock example_clock
           (MovementCreate.mk 9 0 4 None) eq_refl Hn).
Defined.

(** ** A departure time supplied by the caller *)

Lemma group_add_new (r : Movement.t) (gs : list Group) :
  (forall g, In g gs -> same_group (fst g) r = false) ->
  group_add r gs = gs ++ [(r, [])].
Proof.
  induction gs as [|[r0 g0] gs IH]; intros Hnone; [reflexivity|].
  cbn [group_add app].
  pose proof (Hnone (r0, g0) (or_introl eq_refl)) as Hr0. cbn [fst] in Hr0.
  rewrite Hr0, IH; [reflexivity|].
  intros g Hg. apply Hnone. right. exact Hg.
Qed.

(** X16: [departure_time] is taken as given.  A movement logged with
    its own [departure_time] [d], for an elevator without open row and a
    pair of floors no closed row has yet, is reported by [get_ml_data]
    with elapsed time [d] minus the store's time at the insert, and so
    with a negative one when [d] lies before that time. *)
Theorem supplied_departure_is_reported_as_given `{GroupBySemantics}
    (db : Database) (clk clk' : Clock) (movement : MovementCreate.t)
    (d : datetime) :
  MovementCreate.departure_time movement = Some d ->
  (forall r, In r (movements db) ->
             open_for (MovementCreate.elevator_id movement) r = false) ->
  (forall r, In r (movements db) -> is_closed r = true ->
             row_key r <> (MovementCreate.start_floor movement,
                           MovementCreate.end_floor movement)) ->
  exists row s' data,
    log_movement movement clk (SessionLocal db) = (Return row, s')
    /\ fst (get_ml_data clk' (SessionLocal (file s'))) = Return data
    /\ In (ElapsedEntry.mk (MovementCreate.start_floor movement)
                           (MovementCreate.end_floor movement)
                           (MovementCreate.elevator_id movement)
                           (d - sql_now clk))
          (elapsed_data data)
    /\ In (TrainingEntry.mk (MovementCreate.start_floor movement)
                            (MovementCreate.end_floor movement) 1)
          (training_data data).
Proof.
  intros Hdep Hnone Hpair.
  eexists _, _, _. split; [apply log_movement_fresh|].
  rewrite get_ml_data_run. split; [reflexivity|].
  cbn [elapsed_data training_data]. unfold demand_of.
  cbn [file movements SessionLocal].
  rewrite (after_close_none _ _ _ Hnone), filter_app.
  set (row := inserted_row movement clk (movements db)).
  assert (Hclosed : is_closed row = true).
  { unfold is_closed. cbn [row inserted_row Movement.departure_time].
    rewrite Hdep. reflexivity. }
  cbn [filter]. rewrite Hclosed, group_by_snoc.
  set (rows := filter is_closed (movements db)).
  assert (Hnew : group_add row (group_by rows) = group_by rows ++ [(row, [])]).
  { apply group_add_new. intros g Hg.
    destruct (same_group (fst g) row) eqn:Hsg; [|reflexivity].
    exfalso. apply same_group_key in Hsg.
    destruct (group_by_members rows g (fst g) Hg (or_introl eq_refl))
      as [Hin _].
    apply filter_In in Hin. destruct Hin as [Hin Hcl].
    apply (Hpair (fst g) Hin Hcl). rewrite Hsg. reflexivity. }
  rewrite Hnew.
  assert (Hg : In (row, []) (group_order (group_by rows ++ [(row, [])]))).
  { apply (Permutation_in _ (Permutation_sym (group_order_perm _))).
    apply in_or_app. right. left. reflexivity. }
  assert (Hrep : bare_row row [] = row).
  { destruct (bare_row_In row []) as [Heq|[]]. symmetry. exact Heq. }
  split.
  - apply in_map_iff. exists (demand_row (row, [])).
    split; [|apply in_map, Hg].
    unfold elapsed_entry, demand_row. cbn [fst snd d0 d1 d2 d3 d5].
    rewrite Hrep. cbn [row inserted_row Movement.start_floor
      Movement.end_floor Movement.arrival_time Movement.departure_time
      Movement.elevator_id]. rewrite Hdep. reflexivity.
  - apply in_map_iff. exists (demand_row (row, [])).
    split; [|apply in_map, Hg]. reflexivity.
Qed.

Lemma supplied_departure_is_reported_as_given_witness :
  exists row s' data,
    log_movement (MovementCreate.mk 9 0 4 (Some 150)) example_clock
                 (SessionLocal example_store) = (Return row, s')
    /\ fst (get_ml_data example_clock (SessionLocal (file s'))) = Return data
    /\ In (ElapsedEntry.mk 0 4 9 (-50)) (elapsed_data data)
    /\ In (TrainingEntry.mk 0 4 1) (training_data data).
Proof.
  apply (supplied_departure_is_reported_as_given
           example_store example_clock example_clock
           (MovementCreate.mk 9 0 4 (Some 150)) 150 eq_refl).
  - intros r [<-|[<-|[]]]; reflexivity.
  - intros r [<-|[<-|[]]]; discriminate.
Defined.

Lemma every_call_returns_witness :
  call_in_range (CallLogMovement example_request) = true
  /\ rowids_in_range (map Elevator.id (elevators example_store))
  /\ rowids_in_range (map Movement.id (movements example_store))
  /\ exists v,
       fst (serve (CallLogMovement example_request) example_clock
                  example_store) = Return v.
Proof.
  assert (He : rowids_in_range (map Elevator.id (elevators example_store))).
  { intros i []. }
  assert (Hm : rowids_in_range (map Movement.id (movements example_store))).
  { intros i [<-|[<-|[]]]; unfold max_rowid; cbn; lia. }
  split; [reflexivity|]. split; [exact He|]. split; [exact Hm|].
  exact (every_call_returns (CallLogMovement example_request) example_clock
           example_store eq_refl He Hm).
Defined.

(** ** The route of the per-elevator listing *)

(** With [eid] in the query string the route answers with the rows of
    that elevator, whatever the path says. *)
Lemma route_movements_with_query (p eid : Z) (clk : Clock)
    (store : Database) :
  route_movements_elevator_id (mkMovementsRequest p (Some eid)) clk store
  = (Status200 (filter (fun r => Movement.elevator_id r =? eid)
                       (movements store)),
     store).
Proof. reflexivity. Qed.

(** C7 does not hold of the code: the listing is not reached through
    the path.  A request [GET /movements/{elevator_id}] without query
    string is answered 422 for every path segment and every store, also
    when the store has movements of that elevator (here elevator 7, whose
    row the function would return if it were called with 7); and with
    [?eid=8] the request for elevator 7 returns the rows of elevator 8. *)
Theorem route_movements_ignores_path_segment :
  (forall p clk store,
     route_movements_elevator_id (mkMovementsRequest p None) clk store
     = (Status422, store))
  /\ route_movements_elevator_id (mkMovementsRequest 7 None) example_clock
       example_store = (Status422, example_store)
  /\ fst (get_movements' 7 example_clock (SessionLocal example_store))
     = Return [example_open_row]
  /\ route_movements_elevator_id (mkMovementsRequest 7 (Some 8))
       example_clock example_store
     = (Status200 [example_other_row], example_store).
Proof.
  split; [intros p clk store; reflexivity|].
  split; [reflexivity|]. split; reflexivity.
Qed.

(** ** The report after a stay closed by the other clock *)

(** The store of the two calls five seconds apart on the server behind
    UTC: the report gives the stay at floor 5 an elapsed time of -17995. *)
Remark report_of_stay_closed_by_local_clock :
  let tbl := [Movement.mk 1 7 1 5 100000 (Some 82005);
              Movement.mk 2 7 5 2 100005 None] in
  let s := SessionLocal (mkDatabase [] tbl) in
  get_ml_data example_clock s
  = (Return (mkMlData [TrainingEntry.mk 1 5 1]
                      [ElapsedEntry.mk 1 5 7 (-17995)]), s).
Proof. vm_compute. reflexivity. Qed.
